(** * OpenRouter PopClip action: a shallow embedding of [action.ts]

    The action reads the selected text and the extension options, builds a
    chat-completion request, performs one POST, extracts the reply from the
    response body and hands it to one of PopClip's output primitives.

    The first part of the file models the ECMAScript values and built-ins the
    action relies on (strings as UTF-16 code units, IEEE-754 numbers,
    [trim], [parseInt], [parseFloat], [JSON.parse], [String.prototype.replace]).
    The second part transcribes the functions of [action.ts].  The third part
    states and proves the properties of the action. *)

From Stdlib Require Import ZArith NArith List Bool Lia String Ascii.
From Stdlib Require Import SpecFloat Zpow_facts.
Import ListNotations.

(* ================================================================= *)
(** ** ECMAScript strings *)

Module JS.

(** A JavaScript string is a sequence of 16-bit code units. *)
Definition char := N.
Definition jsstring := list char.

(** An ASCII literal of the source, as code units. *)
Fixpoint lit (s : string) : jsstring :=
  match s with
  | EmptyString => []
  | String a r => N_of_ascii a :: lit r
  end.

Definition char_eqb (a b : char) : bool := N.eqb a b.

Fixpoint str_eqb (a b : jsstring) : bool :=
  match a, b with
  | [], [] => true
  | x :: a', y :: b' => char_eqb x y && str_eqb a' b'
  | _, _ => false
  end.

(** [WhiteSpace] and [LineTerminator] code points of ECMA-262, the set
    that [String.prototype.trim] and [parseFloat]/[parseInt] strip. *)
Definition is_ws (c : char) : bool :=
  ((9 <=? c) && (c <=? 13) || (c =? 32) || (c =? 160) || (c =? 5760)
   || (8192 <=? c) && (c <=? 8202) || (c =? 8232) || (c =? 8233)
   || (c =? 8239) || (c =? 8287) || (c =? 12288) || (c =? 65279))%N.

Fixpoint trimStart (s : jsstring) : jsstring :=
  match s with
  | [] => []
  | c :: r => if is_ws c then trimStart r else s
  end.

Definition trimEnd (s : jsstring) : jsstring := rev (trimStart (rev s)).

(** [String.prototype.trim] *)
Definition trim (s : jsstring) : jsstring := trimEnd (trimStart s).

(** [s.startsWith(p)], returning what follows the prefix. *)
Fixpoint strip_prefix (p s : jsstring) : option jsstring :=
  match p, s with
  | [], _ => Some s
  | x :: p', y :: s' => if char_eqb x y then strip_prefix p' s' else None
  | _ :: _, [] => None
  end.

(** [String.prototype.includes] *)
Fixpoint includes (s p : jsstring) : bool :=
  match strip_prefix p s with
  | Some _ => true
  | None => match s with [] => false | _ :: r => includes r p end
  end.

(** Decimal rendering of a non-negative integer ([Number::toString] on an
    integer below 10^21). *)
Definition digit_char (d : N) : char := (48 + d)%N.

Fixpoint digits_of (fuel : nat) (n : N) (acc : jsstring) : jsstring :=
  match fuel with
  | O => acc
  | S f =>
      let acc' := digit_char (n mod 10) :: acc in
      if (n / 10 =? 0)%N then acc' else digits_of f (n / 10) acc'
  end.

Definition toString_N (n : N) : jsstring := digits_of (S (N.size_nat n)) n [].

(* ================================================================= *)
(** ** ECMAScript numbers *)

(** A Number is an IEEE-754 binary64 value: signed zeros, infinities, NaN
    and finite values [m * 2^e]. *)
Definition number := spec_float.

Definition prec : Z := 53.
Definition emax : Z := 1024.

Definition NaN : number := S754_nan.
Definition pInfinity : number := S754_infinity false.
Definition nInfinity : number := S754_infinity true.
Definition pzero : number := S754_zero false.
Definition nzero : number := S754_zero true.

(** The Number value for a mathematical integer (round to nearest, ties to
    even, overflow to an infinity); [neg0] is the sign given to zero. *)
Definition of_Z (z : Z) (neg0 : bool) : number :=
  binary_normalize prec emax z 0 neg0.

(** The Number value for the decimal [m * 10^e10] with [0 <= m]. *)
Definition of_decimal (neg : bool) (m : Z) (e10 : Z) : number :=
  match m with
  | Zpos _ =>
      if (0 <=? e10)%Z
      then of_Z ((if neg then - m else m) * 10 ^ e10)%Z neg
      else
        let '(q, e, l) := SFdiv_core_binary prec emax m 0 (10 ^ (- e10))%Z 0 in
        binary_round_aux prec emax neg q e l
  | _ => S754_zero neg
  end.

Definition isNaN (x : number) : bool :=
  match x with S754_nan => true | _ => false end.

(** [x < y] and [x > y] on Numbers; both are false when an operand is NaN. *)
Definition num_lt (x y : number) : bool := SFltb x y.
Definition num_gt (x y : number) : bool := SFltb y x.
Definition num_le (x y : number) : bool := SFleb x y.

Definition is_pzero (x : number) : bool :=
  match x with S754_zero false => true | _ => false end.
Definition is_nzero (x : number) : bool :=
  match x with S754_zero true => true | _ => false end.

(** [Math.min] and [Math.max] (ECMA-262, 21.3.2.24 and 21.3.2.25): NaN if
    an argument is NaN, otherwise a scan that starts from the opposite
    infinity and orders -0 below +0. *)
Definition min_step (lowest x : number) : number :=
  if is_nzero x && is_pzero lowest then nzero
  else if num_lt x lowest then x else lowest.

Definition max_step (highest x : number) : number :=
  if is_pzero x && is_nzero highest then pzero
  else if num_gt x highest then x else highest.

Definition Math_min (args : list number) : number :=
  if existsb isNaN args then NaN else fold_left min_step args pInfinity.

Definition Math_max (args : list number) : number :=
  if existsb isNaN args then NaN else fold_left max_step args nInfinity.

(** An integral Number: a zero, or a finite [m * 2^e] whose value is a
    whole number. *)
Definition is_integer (x : number) : bool :=
  match x with
  | S754_zero _ => true
  | S754_finite _ m e =>
      (0 <=? e)%Z || (Z.pos m mod 2 ^ (- e) =? 0)%Z
  | _ => false
  end.

(** *** Numeric literals in strings *)

Definition is_digit (c : char) : bool := ((48 <=? c) && (c <=? 57))%N.

Fixpoint span (p : char -> bool) (s : jsstring) : jsstring * jsstring :=
  match s with
  | [] => ([], [])
  | c :: r =>
      if p c then let '(a, b) := span p r in (c :: a, b) else ([], s)
  end.

Definition digits_value (ds : jsstring) : Z :=
  fold_left (fun acc c => (10 * acc + Z.of_N (c - 48))%Z) ds 0%Z.

(** An optional sign: [true] for a minus. *)
Definition take_sign (s : jsstring) : bool * jsstring :=
  match s with
  | 43%N :: r => (false, r)
  | 45%N :: r => (true, r)
  | _ => (false, s)
  end.

(** [Number.parseInt(s, 10)] (ECMA-262, 19.2.5): leading white space and a
    sign are skipped, the longest prefix of decimal digits is read, the
    result is NaN when that prefix is empty and otherwise the Number for
    the integer the digits spell. *)
Definition parseInt10 (s : jsstring) : number :=
  let '(neg, r) := take_sign (trimStart s) in
  let '(ds, _) := span is_digit r in
  match ds with
  | [] => NaN
  | _ => let n := digits_value ds in of_Z (if neg then - n else n) neg
  end.

(** The exponent part (an [e], a sign, digits) of a decimal literal, 0 when it is absent
    or incomplete (the literal then ends before the [e]). *)
Definition exponent_part (s : jsstring) : Z * jsstring :=
  match s with
  | c :: r =>
      if ((c =? 101) || (c =? 69))%N then
        let '(neg, r1) := take_sign r in
        let '(ds, r2) := span is_digit r1 in
        match ds with
        | [] => (0%Z, s)
        | _ => ((if neg then - digits_value ds else digits_value ds)%Z, r2)
        end
      else (0%Z, s)
  | [] => (0%Z, s)
  end.

(** [Number.parseFloat(s)] (ECMA-262, 19.2.4): leading white space is
    skipped and the longest prefix that is a [StrDecimalLiteral] is read;
    NaN when there is none. *)
Definition parseFloat (s : jsstring) : number :=
  let '(neg, r) := take_sign (trimStart s) in
  match strip_prefix (lit "Infinity") r with
  | Some _ => S754_infinity neg
  | None =>
      let '(ip, r1) := span is_digit r in
      let '(fp, r2) :=
        match r1 with
        | 46%N :: r1' => span is_digit r1'
        | _ => ([], r1)
        end in
      match ip ++ fp with
      | [] => NaN
      | ds =>
          let '(ex, _) := exponent_part r2 in
          of_decimal neg (digits_value ds) (ex - Z.of_nat (List.length fp))
      end
  end.

(* ================================================================= *)
(** ** ECMAScript values *)

(** The values a response body can hold ([unknown] in the source): what
    [JSON.parse] produces, plus [undefined] for absent properties.  An
    object lists its own properties in insertion order, each key once. *)
#[warnings="-register-all"]
Inductive value :=
| Undefined
| Null
| Bool (b : bool)
| Num (x : number)
| Str (s : jsstring)
| Arr (items : list value)
| Obj (fields : list (jsstring * value)).

Inductive type_tag :=
| TUndefined | TObject | TBoolean | TNumber | TString.

(** [typeof v]; [null] and arrays are of type "object". *)
Definition typeof (v : value) : type_tag :=
  match v with
  | Undefined => TUndefined
  | Null => TObject
  | Bool _ => TBoolean
  | Num _ => TNumber
  | Str _ => TString
  | Arr _ => TObject
  | Obj _ => TObject
  end.

Definition type_tag_eqb (a b : type_tag) : bool :=
  match a, b with
  | TUndefined, TUndefined | TObject, TObject | TBoolean, TBoolean
  | TNumber, TNumber | TString, TString => true
  | _, _ => false
  end.

(** [ToBoolean]: the falsy values are [undefined], [null], [false], the
    zeros, NaN and the empty string. *)
Definition truthy (v : value) : bool :=
  match v with
  | Undefined | Null => false
  | Bool b => b
  | Num (S754_zero _) | Num S754_nan => false
  | Num _ => true
  | Str [] => false
  | Str _ => true
  | Arr _ | Obj _ => true
  end.

Fixpoint lookup (k : jsstring) (fields : list (jsstring * value)) : value :=
  match fields with
  | [] => Undefined
  | (k', v) :: r => if str_eqb k k' then v else lookup k r
  end.

(** Property read [v.k] for a key that is neither an array index nor
    inherited from a prototype (the keys read by the action are [choices],
    [message], [content], [text] and [error]): the own property of an
    object, [undefined] on an array. *)
Definition get (v : value) (k : jsstring) : value :=
  match v with
  | Obj fields => lookup k fields
  | _ => Undefined
  end.

(** [CreateDataProperty] on an ordinary object: an existing key keeps its
    place and takes the new value, a new key goes last. *)
Fixpoint set_property (k : jsstring) (v : value)
    (fields : list (jsstring * value)) : list (jsstring * value) :=
  match fields with
  | [] => [(k, v)]
  | (k', v') :: r =>
      if str_eqb k k' then (k', v) :: r else (k', v') :: set_property k v r
  end.

(* ================================================================= *)
(** ** JSON.parse *)

(** JSON white space: tab, line feed, carriage return, space. *)
Definition is_json_ws (c : char) : bool :=
  ((c =? 9) || (c =? 10) || (c =? 13) || (c =? 32))%N.

Fixpoint skip_ws (s : jsstring) : jsstring :=
  match s with
  | [] => []
  | c :: r => if is_json_ws c then skip_ws r else s
  end.

Definition hex_value (c : char) : option N :=
  (if (48 <=? c) && (c <=? 57) then Some (c - 48)
   else if (65 <=? c) && (c <=? 70) then Some (c - 55)
   else if (97 <=? c) && (c <=? 102) then Some (c - 87)
   else None)%N.

Definition hex4 (a b c d : char) : option char :=
  match hex_value a, hex_value b, hex_value c, hex_value d with
  | Some x, Some y, Some z, Some w => Some (((x * 16 + y) * 16 + z) * 16 + w)%N
  | _, _, _, _ => None
  end.

Definition simple_escape (c : char) : option char :=
  (if c =? 34 then Some 34          (* quotation mark *)
   else if c =? 92 then Some 92     (* reverse solidus *)
   else if c =? 47 then Some 47     (* solidus *)
   else if c =? 98 then Some 8      (* b *)
   else if c =? 102 then Some 12    (* f *)
   else if c =? 110 then Some 10    (* n *)
   else if c =? 114 then Some 13    (* r *)
   else if c =? 116 then Some 9     (* t *)
   else None)%N.

(** The characters of a JSON string after its opening quotation mark, up
    to the closing one. *)
Fixpoint json_chars (s : jsstring) : option (jsstring * jsstring) :=
  match s with
  | [] => None
  | c :: r =>
      if (c =? 34)%N then Some ([], r)
      else if (c =? 92)%N then
        match r with
        | e :: r1 =>
            if (e =? 117)%N then
              match r1 with
              | h1 :: h2 :: h3 :: h4 :: r2 =>
                  match hex4 h1 h2 h3 h4, json_chars r2 with
                  | Some u, Some (t, rest) => Some (u :: t, rest)
                  | _, _ => None
                  end
              | _ => None
              end
            else
              match simple_escape e, json_chars r1 with
              | Some u, Some (t, rest) => Some (u :: t, rest)
              | _, _ => None
              end
        | [] => None
        end
      else if (c <? 32)%N then None
      else
        match json_chars r with
        | Some (t, rest) => Some (c :: t, rest)
        | None => None
        end
  end.

(** The parts of a JSON number: an optional minus, an integer part (a
    lone 0, or digits that do not start with 0), an optional fraction (a
    dot and at least one digit) and an optional exponent (e or E, an
    optional sign, at least one digit). *)
Definition minus_sign (s : jsstring) : bool * jsstring :=
  match s with
  | c :: r => if (c =? 45)%N then (true, r) else (false, s)
  | [] => (false, s)
  end.

Definition int_part (s : jsstring) : jsstring * jsstring :=
  match s with
  | c :: r => if (c =? 48)%N then ([c], r) else span is_digit s
  | [] => ([], s)
  end.

Definition frac_part (s : jsstring) : option (jsstring * jsstring) :=
  match s with
  | c :: r =>
      if (c =? 46)%N then
        let '(fp, rest) := span is_digit r in
        match fp with [] => None | _ :: _ => Some (fp, rest) end
      else Some ([], s)
  | [] => Some ([], s)
  end.

Definition exp_part (s : jsstring) : option (Z * jsstring) :=
  match s with
  | c :: r =>
      if ((c =? 101) || (c =? 69))%N then
        let '(neg, r1) := take_sign r in
        let '(ds, rest) := span is_digit r1 in
        match ds with
        | [] => None
        | _ :: _ =>
            Some ((if neg then - digits_value ds else digits_value ds)%Z, rest)
        end
      else Some (0%Z, s)
  | [] => Some (0%Z, s)
  end.

Definition json_number (s : jsstring) : option (number * jsstring) :=
  let '(neg, r) := minus_sign s in
  let '(ip, r1) := int_part r in
  match ip with
  | [] => None
  | _ :: _ =>
      match frac_part r1 with
      | None => None
      | Some (fp, r2) =>
          match exp_part r2 with
          | None => None
          | Some (e, rest) =>
              Some (of_decimal neg (digits_value (ip ++ fp))
                      (e - Z.of_nat (List.length fp)), rest)
          end
      end
  end.

(** What the parser is about to read: a value, the elements of an array
    after its opening bracket, or the members of an object after its
    opening brace. *)
Inductive goal :=
| GValue
| GElems (acc : list value)
| GMembers (acc : list (jsstring * value)).

(** One step of the parser; [self] reads what is nested in it. *)
Definition json_step (self : goal -> jsstring -> option (value * jsstring))
    (g : goal) (s : jsstring) : option (value * jsstring) :=
  match g with
  | GValue =>
      match skip_ws s with
      | [] => None
      | c :: r =>
          if (c =? 123)%N then
            match skip_ws r with
            | [] => None
            | d :: r' =>
                if (d =? 125)%N then Some (Obj [], r')
                else self (GMembers []) r
            end
          else if (c =? 91)%N then
            match skip_ws r with
            | [] => None
            | d :: r' =>
                if (d =? 93)%N then Some (Arr [], r')
                else self (GElems []) r
            end
          else if (c =? 34)%N then
            match json_chars r with
            | Some (t, rest) => Some (Str t, rest)
            | None => None
            end
          else if (c =? 116)%N then
            match strip_prefix (lit "true") (c :: r) with
            | Some rest => Some (Bool true, rest)
            | None => None
            end
          else if (c =? 102)%N then
            match strip_prefix (lit "false") (c :: r) with
            | Some rest => Some (Bool false, rest)
            | None => None
            end
          else if (c =? 110)%N then
            match strip_prefix (lit "null") (c :: r) with
            | Some rest => Some (Null, rest)
            | None => None
            end
          else if (c =? 45)%N || is_digit c then
            match json_number (c :: r) with
            | Some (x, rest) => Some (Num x, rest)
            | None => None
            end
          else None
      end
  | GElems acc =>
      match self GValue s with
      | Some (v, r) =>
          match skip_ws r with
          | [] => None
          | d :: r' =>
              if (d =? 44)%N then self (GElems (acc ++ [v])) r'
              else if (d =? 93)%N then Some (Arr (acc ++ [v]), r')
              else None
          end
      | None => None
      end
  | GMembers acc =>
      match skip_ws s with
      | [] => None
      | q :: r =>
          if (q =? 34)%N then
            match json_chars r with
            | Some (k, r1) =>
                match skip_ws r1 with
                | [] => None
                | colon :: r2 =>
                    if (colon =? 58)%N then
                      match self GValue r2 with
                      | Some (v, r3) =>
                          match skip_ws r3 with
                          | [] => None
                          | d :: r4 =>
                              if (d =? 44)%N then
                                self (GMembers (set_property k v acc)) r4
                              else if (d =? 125)%N then
                                Some (Obj (set_property k v acc), r4)
                              else None
                          end
                      | None => None
                      end
                    else None
                end
            | None => None
            end
          else None
      end
  end.

(** The parser, with a bound on the depth of its nesting calls. *)
Fixpoint json_goal (fuel : nat) (g : goal) (s : jsstring)
  : option (value * jsstring) :=
  match fuel with
  | O => None
  | S fuel' => json_step (json_goal fuel') g s
  end.

(** A measure that decreases from a call of the parser to the calls
    nested in it: the elements and members are read from a shorter text,
    and the first value of an array or object from the text they start
    at. *)
Definition weight (g : goal) (s : jsstring) : nat :=
  2 * List.length s + match g with GValue => 0 | _ => 1 end.

(** A parser that consumes text: what it leaves is shorter than what it
    was given. *)
Definition consuming (self : goal -> jsstring -> option (value * jsstring))
  : Prop :=
  forall g s v rest,
    self g s = Some (v, rest) -> List.length rest < List.length s.

(** [JSON.parse(text)]: [None] stands for the [SyntaxError] it throws.
    The fuel exceeds the weight of the text, which is enough for the parser
    to reach its answer. *)
Definition JSON_parse (text : jsstring) : option value :=
  match json_goal (S (weight GValue text)) GValue text with
  | Some (v, rest) =>
      match skip_ws rest with
      | [] => Some v
      | _ :: _ => None
      end
  | None => None
  end.

(* ================================================================= *)
(** ** String.prototype.replace with a global literal pattern *)

(** [GetSubstitution] for a match without capture groups: in the
    replacement text, [$$] stands for a dollar sign, [$&] for the matched
    text, [$`] for the text before the match and [$'] for the text after
    it; any other character, a dollar sign included, stands for itself. *)
Fixpoint GetSubstitution (template matched before after : jsstring)
  : jsstring :=
  match template with
  | [] => []
  | c :: r =>
      if (c =? 36)%N then
        match r with
        | d :: r' =>
            if (d =? 36)%N then
              36%N :: GetSubstitution r' matched before after
            else if (d =? 38)%N then
              matched ++ GetSubstitution r' matched before after
            else if (d =? 96)%N then
              before ++ GetSubstitution r' matched before after
            else if (d =? 39)%N then
              after ++ GetSubstitution r' matched before after
            else c :: GetSubstitution r matched before after
        | [] => [c]
        end
      else c :: GetSubstitution r matched before after
  end.

(** The left-to-right scan shared by the two replacements below: [subst]
    gives the text put in place of a match from the text before it and the
    text after it; [skip] counts the code units of the current match still
    to pass over, [before] is the text already passed. *)
Fixpoint replace_scan (pat : jsstring) (subst : jsstring -> jsstring -> jsstring)
    (skip : nat) (before s : jsstring) : jsstring :=
  match s with
  | [] => []
  | c :: r =>
      match skip with
      | S k => replace_scan pat subst k (before ++ [c]) r
      | O =>
          match strip_prefix pat s with
          | Some after =>
              subst before after
                ++ replace_scan pat subst (List.length pat - 1) (before ++ [c]) r
          | None => c :: replace_scan pat subst 0 (before ++ [c]) r
          end
      end
  end.

(** [s.replace(/pat/g, replacement)] for a non-empty pattern [pat] that
    matches only itself (no regular-expression operator in it). *)
Definition replace_global (pat replacement s : jsstring) : jsstring :=
  replace_scan pat (GetSubstitution replacement pat) 0 [] s.

End JS.

Import JS.

(* ================================================================= *)
(** ** Exceptions and effects of the action *)

(** What a [throw] of the action carries: an [Error] with its message, an
    [HttpStatusError] (a subclass of [Error]) with the status and the
    response body, or a value that is not an [Error]. *)
Inductive exception :=
| Error (message : jsstring)
| HttpStatusError (status : N) (responseBody : value)
| NotAnError (v : value).

Inductive completion (A : Type) :=
| Return (a : A)
| Throw (e : exception).
Arguments Return {A} a.
Arguments Throw {A} e.

Inductive role := system | user.

Record ChatMessage := { msg_role : role; content : jsstring }.

Record ChatRequest := {
  req_model : jsstring;
  req_messages : list ChatMessage;
  req_temperature : number;
  req_max_tokens : number
}.

(** The calls the action makes on its host, in the order it makes them;
    the host's primitives return normally. *)
Inductive effect :=
| XhrSend (url : jsstring) (payload : ChatRequest)
    (headers : list (jsstring * jsstring)) (timeoutMs : N)
| CopyText (s : jsstring)
| ShowText (s : jsstring) (preview : bool)
| PasteText (s : jsstring)
| Print (s : jsstring).

(** A computation of the action: it appends to the trace of host calls and
    either returns or throws. *)
Definition action (A : Type) : Type := list effect -> completion A * list effect.

Definition ret {A} (a : A) : action A := fun tr => (Return a, tr).

Definition throw {A} (e : exception) : action A := fun tr => (Throw e, tr).

Definition emit (e : effect) : action unit := fun tr => (Return tt, tr ++ [e]).

Definition bind {A B} (m : action A) (k : A -> action B) : action B :=
  fun tr =>
    match m tr with
    | (Return a, tr') => k a tr'
    | (Throw e, tr') => (Throw e, tr')
    end.

Definition try_catch {A} (body : action A) (handler : exception -> action A)
  : action A :=
  fun tr =>
    match body tr with
    | (Return a, tr') => (Return a, tr')
    | (Throw e, tr') => handler e tr'
    end.

Definition lift {A} (c : completion A) : action A := fun tr => (c, tr).

Notation "x <- m ;; k" := (bind m (fun x => k))
  (at level 61, m at next level, right associativity).
Notation "m ;;; k" := (bind m (fun _ => k))
  (at level 61, right associativity).

(* ================================================================= *)
(** ** The functions of action.ts *)

Record ExtensionOptions := {
  apikey : option jsstring;
  model : option jsstring;
  systemPrompt : option jsstring;
  userPrompt : option jsstring;
  temperature : option jsstring;
  maxTokens : option jsstring;
  responseHandling : jsstring
}.

Definition DEFAULT_MODEL : jsstring := lit "google/gemini-3-flash-preview".
Definition DEFAULT_TEMPERATURE : number := of_Z 1 false.
Definition DEFAULT_MAX_TOKENS : number := of_Z 1024 false.
Definition REQUEST_TIMEOUT_MS : N := 45000.
Definition OPENROUTER_API_URL : jsstring :=
  lit "https://openrouter.ai/api/v1/chat/completions".

(** The template literals [`${DEFAULT_TEMPERATURE}`] and
    [`${DEFAULT_MAX_TOKENS}`]. *)
Definition DEFAULT_TEMPERATURE_text : jsstring := lit "1".
Definition DEFAULT_MAX_TOKENS_text : jsstring := lit "1024".

(** [raw ?? fallback] *)
Definition nullish {A} (raw : option A) (fallback : A) : A :=
  match raw with Some a => a | None => fallback end.

Definition parseTemperature (raw : option jsstring) : number :=
  let parsed := parseFloat (nullish raw DEFAULT_TEMPERATURE_text) in
  if isNaN parsed then DEFAULT_TEMPERATURE
  else Math_max [of_Z 0 false; Math_min [of_Z 2 false; parsed]].

Definition parseMaxTokens (raw : option jsstring) : number :=
  let parsed := parseInt10 (nullish raw DEFAULT_MAX_TOKENS_text) in
  if isNaN parsed || num_lt parsed (of_Z 1 false) then DEFAULT_MAX_TOKENS
  else parsed.

(** The callback given to [content.map] in [normalizeReplyContent]. *)
Definition part_text (part : value) : jsstring :=
  match part with
  | Str s => s
  | _ =>
      if truthy part && type_tag_eqb (typeof part) TObject then
        match get part (lit "text") with
        | Str text => text
        | _ => []
        end
      else []
  end.

Definition normalizeReplyContent (content : value) : jsstring :=
  match content with
  | Str s => trim s
  | Arr parts => trim (List.concat (map part_text parts))
  | _ => []
  end.

(** [!v || typeof v !== "object"] *)
Definition not_an_object (v : value) : bool :=
  negb (truthy v) || negb (type_tag_eqb (typeof v) TObject).

Definition extractReply (data : value) : completion jsstring :=
  if not_an_object data then
    Throw (Error (lit "API Error: invalid response payload"))
  else
    match get data (lit "choices") with
    | Arr (firstChoice :: _) =>
        if not_an_object firstChoice then
          Throw (Error (lit "API Error: invalid completion choice"))
        else
          let message := get firstChoice (lit "message") in
          if not_an_object message then
            Throw (Error (lit "API Error: invalid completion message"))
          else
            let reply := normalizeReplyContent (get message (lit "content")) in
            match reply with
            | [] => Throw (Error (lit "API Error: empty completion message"))
            | _ :: _ => Return reply
            end
    | _ => Throw (Error (lit "API Error: no completion choices returned"))
    end.

(** What the network does with the one request: a response arrives
    ([xhr.onload], with [xhr.status] and [xhr.responseText]), the request
    fails ([xhr.onerror]) or it times out ([xhr.ontimeout]). *)
Inductive xhr_event :=
| OnLoad (status : N) (responseText : option jsstring)
| OnError
| OnTimeout.

Record Response := { resp_status : N; data : value }.

(** The body of [xhr.onload]: the parsed response body. *)
Definition parse_body (responseText : jsstring) : value :=
  match trim responseText with
  | [] => Str responseText
  | _ :: _ =>
      match JSON_parse responseText with
      | Some v => v
      | None => Str responseText
      end
  end.

Definition onload (status : N) (xhr_responseText : option jsstring)
  : completion Response :=
  let responseText := nullish xhr_responseText [] in
  let parsed := parse_body responseText in
  if ((200 <=? status) && (status <? 300))%N
  then Return {| resp_status := status; data := parsed |}
  else Throw (HttpStatusError status parsed).

Definition postJson (url : jsstring) (payload : ChatRequest)
    (headers : list (jsstring * jsstring)) (timeoutMs : N)
    (net : xhr_event) : action Response :=
  emit (XhrSend url payload headers timeoutMs) ;;;
  match net with
  | OnLoad status responseText => lift (onload status responseText)
  | OnError => throw (Error (lit "Network request failed"))
  | OnTimeout => throw (Error (lit "Request timeout"))
  end.

Definition newline : char := 10%N.
Definition placeholder : jsstring := lit "{{text}}".

(** [options.systemPrompt?.trim()] and [options.userPrompt?.trim()], when
    truthy. *)
Definition trimmed_nonempty (raw : option jsstring) : option jsstring :=
  match raw with
  | None => None
  | Some s => match trim s with [] => None | t => Some t end
  end.

Definition userContent (inputText : jsstring) (rawUserPrompt : option jsstring)
  : jsstring :=
  match trimmed_nonempty rawUserPrompt with
  | Some prompt =>
      if includes prompt placeholder
      then replace_global placeholder inputText prompt
      else prompt ++ [newline; newline] ++ inputText
  | None => inputText
  end.

Definition messages (options : ExtensionOptions) (inputText : jsstring)
  : list ChatMessage :=
  (match trimmed_nonempty (systemPrompt options) with
   | Some sp => [ {| msg_role := system; content := sp |} ]
   | None => []
   end)
  ++ [ {| msg_role := user; content := userContent inputText (userPrompt options) |} ].

(** The dispatch on [options.responseHandling]. *)
Definition route (mode reply input_text : jsstring) : action unit :=
  if str_eqb mode (lit "copy") then emit (CopyText reply)
  else if str_eqb mode (lit "show") then emit (ShowText reply true)
  else if str_eqb mode (lit "replace") then emit (PasteText reply)
  else emit (PasteText (input_text ++ [newline; newline] ++ reply)).

(** The message computed in the [catch] block of [run]. *)
Definition errorMsg (error : exception) : jsstring :=
  match error with
  | HttpStatusError status data =>
      let apiMessage : option jsstring :=
        if truthy data && type_tag_eqb (typeof data) TObject then
          let apiError := get data (lit "error") in
          if truthy apiError && type_tag_eqb (typeof apiError) TObject then
            match get apiError (lit "message") with
            | Str message => Some message
            | _ => None
            end
          else None
        else
          match data with
          | Str s => Some s
          | _ => None
          end in
      lit "API Error " ++ toString_N status ++ lit ": "
        ++ nullish apiMessage (lit "Request failed")
  | Error message => lit "Network/Error: " ++ message
  | NotAnError _ => lit "Unknown Error"
  end.

Definition request_headers (apikey : jsstring) : list (jsstring * jsstring) :=
  [ (lit "Authorization", lit "Bearer " ++ apikey);
    (lit "Content-Type", lit "application/json");
    (lit "HTTP-Referer", lit "https://popclip.app/");
    (lit "X-Title", lit "PopClip Extension") ].

(** [run], with [input_text] for [popclip.input.text], [options] for
    [popclip.options] and [net] for the outcome of the request. *)
Definition run (input_text : jsstring) (options : ExtensionOptions)
    (net : xhr_event) : action unit :=
  let apikey := trim (nullish (apikey options) []) in
  match apikey with
  | [] => throw (Error (lit "Settings error: API Key is required"))
  | _ :: _ =>
      let model := trim (nullish (model options) DEFAULT_MODEL) in
      let temperature := parseTemperature (temperature options) in
      let maxTokens := parseMaxTokens (maxTokens options) in
      let inputText := trim input_text in
      let messages := messages options inputText in
      try_catch
        (response <-
           postJson OPENROUTER_API_URL
             {| req_model := model;
                req_messages := messages;
                req_temperature := temperature;
                req_max_tokens := maxTokens |}
             (request_headers apikey)
             REQUEST_TIMEOUT_MS net ;;
         reply <- lift (extractReply (data response)) ;;
         route (responseHandling options) reply input_text)
        (fun error =>
           let errorMsg := errorMsg error in
           emit (Print errorMsg) ;;;
           throw (Error errorMsg))
  end.

(* ================================================================= *)
(** ** The properties, as the specification words them *)

(** The content of a response body that has the required shape: the body
    is an object whose [choices] is a non-empty array, the first choice is
    an object whose [message] is an object, and the message's [content] is
    a string or an array. *)
Definition required_content (body : value) : option value :=
  match body with
  | Obj fields =>
      match lookup (lit "choices") fields with
      | Arr (Obj choice :: _) =>
          match lookup (lit "message") choice with
          | Obj message =>
              match lookup (lit "content") message with
              | Str s => Some (Str s)
              | Arr parts => Some (Arr parts)
              | _ => None
              end
          | _ => None
          end
      | _ => None
      end
  | _ => None
  end.

(** The detail of a status failure: the [message] string of the [error]
    object of an object body, else a string body itself, else a generic
    text. *)
Definition status_detail (body : value) : jsstring :=
  match body with
  | Obj fields =>
      match lookup (lit "error") fields with
      | Obj err =>
          match lookup (lit "message") err with
          | Str m => m
          | _ => lit "Request failed"
          end
      | _ => lit "Request failed"
      end
  | Str s => s
  | _ => lit "Request failed"
  end.

(** Plain substitution: every occurrence of [pat], found from left to
    right, is replaced by [repl], taken literally. *)
Fixpoint substitute_fuel (fuel : nat) (pat repl s : jsstring) : jsstring :=
  match fuel with
  | O => s
  | S fuel' =>
      match s with
      | [] => []
      | c :: r =>
          match strip_prefix pat s with
          | Some rest => repl ++ substitute_fuel fuel' pat repl rest
          | None => c :: substitute_fuel fuel' pat repl r
          end
      end
  end.

Definition substitute_all (pat repl s : jsstring) : jsstring :=
  substitute_fuel (List.length s) pat repl s.

(** The user message content as the specification derives it from the
    trimmed selection and the optional user prompt. *)
Definition userContent_spec (inputText : jsstring)
    (rawUserPrompt : option jsstring) : jsstring :=
  match rawUserPrompt with
  | None => inputText
  | Some raw =>
      match trim raw with
      | [] => inputText
      | prompt =>
          if includes prompt (lit "{{text}}")
          then substitute_all (lit "{{text}}") inputText prompt
          else prompt ++ [newline; newline] ++ inputText
      end
  end.

(** A text without a dollar sign. *)
Definition dollar_free (s : jsstring) : bool :=
  forallb (fun c => negb (c =? 36)%N) s.

Definition count_role (r : role) (ms : list ChatMessage) : nat :=
  List.length
    (filter (fun m => match msg_role m, r with
                      | system, system | user, user => true
                      | _, _ => false
                      end) ms).

(** The one request [run] sends. *)
Definition request_of (input_text : jsstring) (options : ExtensionOptions)
  : effect :=
  XhrSend OPENROUTER_API_URL
    {| req_model := trim (nullish (model options) DEFAULT_MODEL);
       req_messages := messages options (trim input_text);
       req_temperature := parseTemperature (temperature options);
       req_max_tokens := parseMaxTokens (maxTokens options) |}
    (request_headers (trim (nullish (apikey options) [])))
    REQUEST_TIMEOUT_MS.

(** The outcome of the transport followed by the reply extractor: the
    reply, or the failure of the first stage that fails. *)
Definition pipeline_outcome (net : xhr_event) : completion jsstring :=
  match net with
  | OnLoad status xhr_text =>
      match onload status xhr_text with
      | Return response => extractReply (data response)
      | Throw e => Throw e
      end
  | OnError => Throw (Error (lit "Network request failed"))
  | OnTimeout => Throw (Error (lit "Request timeout"))
  end.

(** What a failed run leaves behind, from the trace [tr0] it started with:
    either the API key is missing, the settings message is thrown and the
    trace is unchanged (nothing is printed); or the key is present, the
    pipeline failed with [cause], and the run added its request and one
    [Print] of the classified message, then threw an [Error] with that
    same message. *)
Definition failure_report (input_text : jsstring) (options : ExtensionOptions)
    (net : xhr_event) (tr0 : list effect) (e : exception) (tr : list effect)
  : Prop :=
  (trim (nullish (apikey options) []) = []
   /\ e = Error (lit "Settings error: API Key is required")
   /\ tr = tr0)
  \/ (trim (nullish (apikey options) []) <> []
      /\ exists cause,
           pipeline_outcome net = Throw cause
           /\ e = Error (errorMsg cause)
           /\ tr = tr0 ++ [request_of input_text options;
                           Print (errorMsg cause)]).

(** The sink call the specification assigns to a mode. *)
Definition sink_of (mode reply input_text : jsstring) : effect :=
  if str_eqb mode (lit "copy") then CopyText reply
  else if str_eqb mode (lit "show") then ShowText reply true
  else if str_eqb mode (lit "replace") then PasteText reply
  else PasteText (input_text ++ [newline; newline] ++ reply).

(** A number clamped into [0, 2]. *)
Definition clamp_0_2 (x : number) : number :=
  if num_lt x (of_Z 0 false) then of_Z 0 false
  else if num_gt x (of_Z 2 false) then of_Z 2 false
  else x.

(** Numeric equality ([==] on Numbers): the two zeros are equal. *)
Definition num_eq (x y : number) : bool := SFeqb x y.

(** *** Sample inputs *)

Definition dquote : jsstring := [34%N].
Definition quoted (s : string) : jsstring := dquote ++ lit s ++ dquote.

(** The body [{"choices":[]}] and its text. *)
Definition body_no_choices : value := Obj [(lit "choices", Arr [])].
Definition text_no_choices : jsstring :=
  lit "{" ++ quoted "choices" ++ lit ":[]}".

(** A completion whose message has the given content. *)
Definition body_with_content (c : value) : value :=
  Obj [(lit "id", Str (lit "gen-1"));
       (lit "choices",
        Arr [Obj [(lit "index", Num (of_Z 0 false));
                  (lit "message",
                   Obj [(lit "role", Str (lit "assistant"));
                        (lit "content", c)])]])].

(** The text of a completion whose message content is [" X "]. *)
Definition text_reply_X : jsstring :=
  lit "{" ++ quoted "choices" ++ lit ": [{" ++ quoted "message" ++ lit ": {"
    ++ quoted "role" ++ lit ": " ++ quoted "assistant" ++ lit ", "
    ++ quoted "content" ++ lit ": " ++ quoted " X " ++ lit "}}]}".

(** The body [{"error":{"message":"rate limited"}}] and its text. *)
Definition body_rate_limited : value :=
  Obj [(lit "error", Obj [(lit "message", Str (lit "rate limited"))])].
Definition text_rate_limited : jsstring :=
  lit "{" ++ quoted "error" ++ lit ":{" ++ quoted "message" ++ lit ":"
    ++ quoted "rate limited" ++ lit "}}".

Definition sample_options : ExtensionOptions :=
  {| apikey := Some (lit "sk-or-sample");
     model := None;
     systemPrompt := Some (lit " Be brief. ");
     userPrompt := Some (lit "Translate: {{text}}!");
     temperature := Some (lit "0.7");
     maxTokens := None;
     responseHandling := lit "copy" |}.

(** A max-tokens setting of four hundred nines. *)
Definition four_hundred_nines : jsstring := repeat 57%N 400.

Definition no_key_options : ExtensionOptions :=
  {| apikey := Some (lit "   ");
     model := None;
     systemPrompt := None;
     userPrompt := None;
     temperature := None;
     maxTokens := None;
     responseHandling := lit "append" |}.

(** *** Vocabulary of the further properties *)

(** A value that is neither an array nor an object. *)
Definition primitive (v : value) : bool :=
  match v with
  | Arr _ | Obj _ => false
  | _ => true
  end.

(** A content part that carries no text: anything but a string or an
    object whose [text] is a string. *)
Definition textless (part : value) : bool :=
  match part with
  | Str _ => false
  | Obj fields =>
      match lookup (lit "text") fields with
      | Str _ => false
      | _ => true
      end
  | _ => true
  end.

(** A content that is neither a string nor an array. *)
Definition not_text_content (c : value) : bool :=
  match c with
  | Str _ | Arr _ => false
  | _ => true
  end.

(** [s.startsWith(p)] *)
Definition starts_with (p s : jsstring) : bool :=
  match strip_prefix p s with
  | Some _ => true
  | None => false
  end.

(** The integer an integral Number stands for. *)
Definition number_to_Z (x : number) : option Z :=
  match x with
  | S754_zero _ => Some 0%Z
  | S754_finite s m e =>
      let sign := if s then (-1)%Z else 1%Z in
      if (0 <=? e)%Z then Some (sign * (Z.pos m * 2 ^ e))%Z
      else if (Z.pos m mod 2 ^ (- e) =? 0)%Z
           then Some (sign * (Z.pos m / 2 ^ (- e)))%Z
           else None
  | _ => None
  end.

(** The requests in a trace, each with its payload and headers. *)
Definition requests (tr : list effect)
  : list (ChatRequest * list (jsstring * jsstring)) :=
  flat_map (fun e => match e with
                     | XhrSend _ payload headers _ => [(payload, headers)]
                     | _ => []
                     end) tr.

(** The messages printed in a trace. *)
Definition printed (tr : list effect) : list jsstring :=
  flat_map (fun e => match e with Print m => [m] | _ => [] end) tr.

(** Options with a second key, a blank model and no prompts. *)
Definition plain_options : ExtensionOptions :=
  {| apikey := Some (lit " sk-or-other ");
     model := Some (lit "  ");
     systemPrompt := None;
     userPrompt := None;
     temperature := Some (lit "9");
     maxTokens := Some (lit "12.9");
     responseHandling := lit "append" |}.

(** The payload of a request, and an empty request for the other host
    calls. *)
Definition req_payload_of (e : effect) : ChatRequest :=
  match e with
  | XhrSend _ payload _ _ => payload
  | _ => {| req_model := []; req_messages := [];
            req_temperature := NaN; req_max_tokens := NaN |}
  end.

(** A body with the given [choices]. *)
Definition body_with_choices (choices : value) : value :=
  Obj [(lit "object", Str (lit "chat.completion"));
       (lit "choices", choices)].

(* ================================================================= *)
(** ** Facts about strings *)

Section StringFacts.

Lemma str_eqb_refl (a : jsstring) : str_eqb a a = true.
Proof.
  induction a as [|c a IH]; simpl; [reflexivity|].
  unfold char_eqb. now rewrite N.eqb_refl.
Qed.

Lemma str_eqb_eq (a b : jsstring) : str_eqb a b = true <-> a = b.
Proof.
  split.
  - revert b. induction a as [|c a IH]; intros [|d b] H; simpl in H;
      try discriminate; [reflexivity|].
    apply andb_true_iff in H. destruct H as [Hc Hr].
    apply N.eqb_eq in Hc. apply IH in Hr. now subst.
  - intros ->. apply str_eqb_refl.
Qed.

Lemma str_eqb_neq (a b : jsstring) : a <> b -> str_eqb a b = false.
Proof.
  intros H. destruct (str_eqb a b) eqn:E; [|reflexivity].
  apply str_eqb_eq in E. contradiction.
Qed.

(** [trimStart] removes a prefix of white space and stops at the first
    other character. *)
Lemma trimStart_split (s : jsstring) :
  exists p, s = p ++ trimStart s /\ forallb is_ws p = true.
Proof.
  induction s as [|c s IH]; simpl.
  - exists []. auto.
  - destruct (is_ws c) eqn:E.
    + destruct IH as [p [Hp Hw]]. exists (c :: p). simpl.
      rewrite E, Hw. split; [now f_equal | reflexivity].
    + exists []. auto.
Qed.

Lemma trimStart_head (s : jsstring) (c : char) (r : jsstring) :
  trimStart s = c :: r -> is_ws c = false.
Proof.
  induction s as [|d s IH]; simpl; [discriminate|].
  destruct (is_ws d) eqn:E; [exact IH|].
  intros H. injection H as -> _. exact E.
Qed.

Lemma trimStart_fixed (s : jsstring) :
  match s with [] => True | c :: _ => is_ws c = false end ->
  trimStart s = s.
Proof.
  destruct s as [|c r]; simpl; [reflexivity|]. now intros ->.
Qed.

Lemma trimStart_idem (s : jsstring) : trimStart (trimStart s) = trimStart s.
Proof.
  apply trimStart_fixed. destruct (trimStart s) as [|c r] eqn:E; [exact I|].
  exact (trimStart_head _ _ _ E).
Qed.

Lemma trimStart_nil_iff (s : jsstring) :
  trimStart s = [] <-> forallb is_ws s = true.
Proof.
  induction s as [|c s IH]; simpl; [tauto|].
  destruct (is_ws c); simpl; [exact IH|]. split; discriminate.
Qed.

Lemma forallb_rev {A} (f : A -> bool) (l : list A) :
  forallb f (rev l) = forallb f l.
Proof.
  induction l as [|a l IH]; simpl; [reflexivity|].
  rewrite forallb_app, IH. simpl. rewrite andb_true_r. apply andb_comm.
Qed.

(** The text kept by [trimEnd] is a prefix of the text it is given. *)
Lemma trimEnd_split (s : jsstring) :
  exists q, s = trimEnd s ++ q /\ forallb is_ws q = true.
Proof.
  unfold trimEnd. destruct (trimStart_split (rev s)) as [p [Hp Hw]].
  exists (rev p). split.
  - rewrite <- (rev_involutive s), Hp at 1. now rewrite rev_app_distr.
  - now rewrite forallb_rev.
Qed.

Lemma trimEnd_idem (s : jsstring) : trimEnd (trimEnd s) = trimEnd s.
Proof.
  unfold trimEnd. now rewrite rev_involutive, trimStart_idem.
Qed.

Lemma trimStart_trimEnd (s : jsstring) :
  trimStart s = s -> trimStart (trimEnd s) = trimEnd s.
Proof.
  intros Hs. apply trimStart_fixed.
  destruct (trimEnd_split s) as [q [Hq _]].
  destruct (trimEnd s) as [|c r]; [exact I|].
  rewrite Hq in Hs. simpl in Hs.
  destruct (is_ws c) eqn:E; [|reflexivity].
  exfalso. destruct (trimStart_split (r ++ q)) as [p [Hp _]].
  rewrite Hs in Hp. apply (f_equal (@List.length _)) in Hp.
  rewrite !length_app in Hp. simpl in Hp. rewrite length_app in Hp. lia.
Qed.

(** [trim] is idempotent: a trimmed string has nothing left to trim. *)
Lemma trim_idem (s : jsstring) : trim (trim s) = trim s.
Proof.
  unfold trim.
  rewrite (trimStart_trimEnd (trimStart s) (trimStart_idem s)).
  apply trimEnd_idem.
Qed.

(** A string trims to the empty string exactly when it is all white space. *)
Lemma trim_nil_iff (s : jsstring) : trim s = [] <-> forallb is_ws s = true.
Proof.
  unfold trim, trimEnd. split.
  - intros H. apply (f_equal (@rev _)) in H. rewrite rev_involutive in H.
    simpl in H. apply trimStart_nil_iff in H. rewrite forallb_rev in H.
    destruct (trimStart_split s) as [p [Hp Hw]].
    rewrite Hp, forallb_app, Hw, H. reflexivity.
  - intros H. apply trimStart_nil_iff in H. rewrite H. reflexivity.
Qed.

Lemma strip_prefix_Some (p s r : jsstring) :
  strip_prefix p s = Some r -> s = p ++ r.
Proof.
  revert s. induction p as [|x p IH]; intros [|y s]; simpl;
    try discriminate; try (intros H; now injection H as <-).
  unfold char_eqb. destruct (N.eqb_spec x y) as [->|]; [|discriminate].
  intros H. now rewrite (IH _ H).
Qed.

Lemma strip_prefix_length (p s r : jsstring) :
  strip_prefix p s = Some r -> List.length s = List.length p + List.length r.
Proof.
  intros H. apply strip_prefix_Some in H. subst. apply length_app.
Qed.

Lemma span_length (p : char -> bool) (s a b : jsstring) :
  span p s = (a, b) -> List.length s = List.length a + List.length b.
Proof.
  revert a b. induction s as [|c s IH]; intros a b; simpl.
  - intros H. injection H as <- <-. reflexivity.
  - destruct (p c).
    + destruct (span p s) as [a' b'] eqn:E. intros H. injection H as <- <-.
      simpl. now rewrite (IH _ _ eq_refl).
    + intros H. injection H as <- <-. reflexivity.
Qed.

Lemma take_sign_length (s r : jsstring) (b : bool) :
  take_sign s = (b, r) -> List.length r <= List.length s.
Proof.
  unfold take_sign. intros H.
  repeat match type of H with
         | context [match ?x with _ => _ end] => destruct x
         end; injection H as <- <-; simpl; lia.
Qed.

End StringFacts.

(* ================================================================= *)
(** ** The reply extractor *)

Section ReplyExtractor.

(** One step through the shape checks: property reads and [typeof] tests
    on a value whose constructor is known. *)
Ltac shape_step :=
  cbn [get not_an_object truthy typeof type_tag_eqb negb orb andb
       normalizeReplyContent].

Lemma normalizeReplyContent_trimmed (c : value) :
  trim (normalizeReplyContent c) = normalizeReplyContent c.
Proof.
  destruct c; simpl; try reflexivity; apply trim_idem.
Qed.

(** Whatever [extractReply] returns is the normalized content of some
    value, and is not empty. *)
Lemma extractReply_Return_inv (data : value) (r : jsstring) :
  extractReply data = Return r ->
  r <> [] /\ exists c, r = normalizeReplyContent c.
Proof.
  unfold extractReply.
  destruct (not_an_object data); [discriminate|].
  destruct (get data (lit "choices")) as [| | | | |[|first rest]|];
    try discriminate.
  destruct (not_an_object first); [discriminate|].
  destruct (not_an_object (get first (lit "message"))); [discriminate|].
  destruct (normalizeReplyContent (get (get first (lit "message")) (lit "content")))
    as [|c0 r0] eqn:E; [discriminate|].
  intros H. injection H as <-. split; [discriminate|].
  eexists. symmetry. exact E.
Qed.

(** Every failure of [extractReply] is a plain [Error]. *)
Lemma extractReply_Throw_inv (data : value) (e : exception) :
  extractReply data = Throw e -> exists m, e = Error m.
Proof.
  unfold extractReply.
  repeat match goal with
         | |- context [if ?b then _ else _] => destruct b
         | |- context [match ?x with _ => _ end] => destruct x
         end;
    intros H; try discriminate; injection H as <-; eexists; reflexivity.
Qed.

(** On a body of the required shape, [extractReply] reads the content the
    specification names. *)
Lemma extractReply_on_required (data c : value) :
  required_content data = Some c ->
  extractReply data =
    match normalizeReplyContent c with
    | [] => Throw (Error (lit "API Error: empty completion message"))
    | r => Return r
    end.
Proof.
  unfold required_content, extractReply.
  destruct data as [| | | | | |fields]; try discriminate. shape_step.
  destruct (lookup (lit "choices") fields) as [| | | | |[|first rest]|];
    try discriminate.
  destruct first as [| | | | | |choice]; try discriminate. shape_step.
  destruct (lookup (lit "message") choice) as [| | | | | |message];
    try discriminate. shape_step.
  destruct (lookup (lit "content") message) as [| | | |t|parts|];
    try discriminate; intros H; injection H as <-;
    destruct (normalizeReplyContent _); reflexivity.
Qed.

(** Off the required shape, [extractReply] fails. *)
Lemma extractReply_off_required (data : value) :
  required_content data = None -> exists m, extractReply data = Throw (Error m).
Proof.
  intros H.
  destruct (extractReply data) as [r|e] eqn:E.
  - exfalso. revert E H. unfold extractReply, required_content.
    destruct data as [| | | | | |fields]; shape_step; try discriminate;
      try (destruct (not_an_object _); discriminate).
    destruct (lookup (lit "choices") fields) as [| | | | |[|first rest]|];
      try discriminate.
    destruct first as [| | | | |items|choice]; shape_step; try discriminate;
      try (destruct (not_an_object _); discriminate).
    destruct (lookup (lit "message") choice) as [| | | | |items|message];
      shape_step; try discriminate;
      try (destruct (not_an_object _); discriminate).
    destruct (lookup (lit "content") message) as [| | | |t|parts|];
      shape_step; discriminate.
  - destruct (extractReply_Throw_inv _ _ E) as [m ->]. now exists m.
Qed.

(** C1: a response body that deviates from the required shape makes
    [extractReply] fail; a body of the required shape whose normalized
    content is empty makes it fail with the empty-completion message;
    otherwise [extractReply] returns the normalized content, which is
    trimmed and not empty.  Whatever it returns is trimmed and not empty. *)
Theorem extractReply_shape_or_failure (data : value) :
  (required_content data = None ->
     exists m, extractReply data = Throw (Error m))
  /\ (forall c, required_content data = Some c ->
        normalizeReplyContent c = [] ->
        extractReply data =
          Throw (Error (lit "API Error: empty completion message")))
  /\ (forall c, required_content data = Some c ->
        normalizeReplyContent c <> [] ->
        extractReply data = Return (normalizeReplyContent c))
  /\ (forall r, extractReply data = Return r -> r <> [] /\ trim r = r).
Proof.
  split; [apply extractReply_off_required|].
  split; [|split].
  - intros c Hc Hn. rewrite (extractReply_on_required _ _ Hc), Hn. reflexivity.
  - intros c Hc Hn. rewrite (extractReply_on_required _ _ Hc).
    destruct (normalizeReplyContent c); [contradiction|reflexivity].
  - intros r Hr. destruct (extractReply_Return_inv _ _ Hr) as [Hne [c ->]].
    split; [exact Hne|apply normalizeReplyContent_trimmed].
Qed.

Lemma extractReply_shape_or_failure_witness :
  (exists m, extractReply body_no_choices = Throw (Error m))
  /\ extractReply (body_with_content (Arr [Obj []])) =
       Throw (Error (lit "API Error: empty completion message"))
  /\ extractReply (body_with_content (Str (lit " Hi there. "))) =
       Return (normalizeReplyContent (Str (lit " Hi there. ")))
  /\ (lit "Hi there." <> [] /\ trim (lit "Hi there.") = lit "Hi there.").
Proof.
  split; [|split; [|split]].
  - apply (proj1 (extractReply_shape_or_failure body_no_choices)).
    reflexivity.
  - apply (proj1 (proj2 (extractReply_shape_or_failure
                           (body_with_content (Arr [Obj []]))))
             (Arr [Obj []])); reflexivity.
  - apply (proj1 (proj2 (proj2 (extractReply_shape_or_failure
                                  (body_with_content (Str (lit " Hi there. "))))))
             (Str (lit " Hi there. "))); [reflexivity|].
    vm_compute. discriminate.
  - apply (proj2 (proj2 (proj2 (extractReply_shape_or_failure
                                  (body_with_content (Str (lit " Hi there. "))))))).
    vm_compute. reflexivity.
Defined.

End ReplyExtractor.

(* ================================================================= *)
(** ** The JSON parser reaches its answer *)

Section JsonFuel.

Lemma skip_ws_length (s : jsstring) : List.length (skip_ws s) <= List.length s.
Proof.
  induction s as [|c s IH]; simpl; [lia|]. destruct (is_json_ws c); simpl; lia.
Qed.

Lemma json_chars_length (n : nat) :
  forall s t rest, List.length s <= n ->
    json_chars s = Some (t, rest) -> List.length rest < List.length s.
Proof.
  induction n as [|n IH]; intros s t rest Hn.
  - destruct s; [discriminate|simpl in Hn; lia].
  - destruct s as [|c r]; [discriminate|]. simpl in Hn. cbn [json_chars].
    destruct (c =? 34)%N.
    { intros H. injection H as <- <-. simpl. lia. }
    destruct (c =? 92)%N.
    { destruct r as [|e r1]; [discriminate|].
      destruct (e =? 117)%N.
      - destruct r1 as [|h1 [|h2 [|h3 [|h4 r2]]]]; try discriminate.
        destruct (hex4 h1 h2 h3 h4); [|discriminate].
        destruct (json_chars r2) as [[t' rest']|] eqn:E; [|discriminate].
        intros H. injection H as <- <-.
        apply IH in E; simpl in *; lia.
      - destruct (simple_escape e); [|discriminate].
        destruct (json_chars r1) as [[t' rest']|] eqn:E; [|discriminate].
        intros H. injection H as <- <-.
        apply IH in E; simpl in *; lia. }
    destruct (c <? 32)%N; [discriminate|].
    destruct (json_chars r) as [[t' rest']|] eqn:E; [|discriminate].
    intros H. injection H as <- <-. apply IH in E; simpl in *; lia.
Qed.

Lemma json_number_length (s rest : jsstring) (x : number) :
  json_number s = Some (x, rest) -> List.length rest < List.length s.
Proof.
  unfold json_number.
  destruct (minus_sign s) as [neg r] eqn:E0.
  assert (H0 : List.length r <= List.length s).
  { unfold minus_sign in E0. destruct s as [|c s']; [injection E0 as <- <-; lia|].
    destruct (c =? 45)%N; injection E0 as <- <-; simpl; lia. }
  destruct (int_part r) as [ip r1] eqn:E1.
  assert (H1 : List.length r = List.length ip + List.length r1).
  { unfold int_part in E1. destruct r as [|c r']; [injection E1 as <- <-; reflexivity|].
    destruct (c =? 48)%N; [injection E1 as <- <-; reflexivity|].
    now apply span_length in E1. }
  destruct ip as [|d ip]; [discriminate|].
  destruct (frac_part r1) as [[fp r2]|] eqn:E2; [|discriminate].
  assert (H2 : List.length r2 <= List.length r1).
  { unfold frac_part in E2. destruct r1 as [|c r']; [injection E2 as <- <-; lia|].
    destruct (c =? 46)%N; [|injection E2 as <- <-; lia].
    destruct (span is_digit r') as [a b] eqn:E. apply span_length in E.
    destruct a; [discriminate|]. injection E2 as <- <-. simpl in *. lia. }
  destruct (exp_part r2) as [[e r3]|] eqn:E3; [|discriminate].
  assert (H3 : List.length r3 <= List.length r2).
  { unfold exp_part in E3. destruct r2 as [|c r']; [injection E3 as <- <-; lia|].
    destruct ((c =? 101) || (c =? 69))%N; [|injection E3 as <- <-; lia].
    destruct (take_sign r') as [eneg r4] eqn:Es. apply take_sign_length in Es.
    destruct (span is_digit r4) as [a b] eqn:E. apply span_length in E.
    destruct a; [discriminate|]. injection E3 as <- <-. simpl in *. lia. }
  intros H. injection H as <- <-. simpl in *. lia.
Qed.

(** Facts about what a successful parse leaves, gathered from the
    context. *)
Ltac json_lengths :=
  repeat match goal with
         | H : skip_ws ?s = _ |- _ =>
             let L := fresh "L" in
             pose proof (skip_ws_length s) as L; rewrite H in L;
             revert H
         | H : json_chars ?s = Some (_, _) |- _ =>
             apply (json_chars_length (List.length s) s _ _ (le_n _)) in H
         | H : json_number ?s = Some (_, _) |- _ =>
             apply json_number_length in H
         | H : strip_prefix ?p ?s = Some _ |- _ =>
             apply strip_prefix_length in H
         end;
  intros; simpl in *.

Lemma json_step_consuming self : consuming self -> consuming (json_step self).
Proof.
  intros IH g s v rest. unfold json_step. destruct g as [|acc|acc].
  - destruct (skip_ws s) as [|c r] eqn:Es; [discriminate|].
    destruct (c =? 123)%N.
    { destruct (skip_ws r) as [|d r'] eqn:Er; [discriminate|].
      destruct (d =? 125)%N.
      - intros H. injection H as <- <-. json_lengths. lia.
      - intros H. apply IH in H. json_lengths. lia. }
    destruct (c =? 91)%N.
    { destruct (skip_ws r) as [|d r'] eqn:Er; [discriminate|].
      destruct (d =? 93)%N.
      - intros H. injection H as <- <-. json_lengths. lia.
      - intros H. apply IH in H. json_lengths. lia. }
    destruct (c =? 34)%N.
    { destruct (json_chars r) as [[t rest']|] eqn:Ec; [|discriminate].
      intros H. injection H as <- <-. json_lengths. lia. }
    destruct (c =? 116)%N.
    { destruct (strip_prefix (lit "true") (c :: r)) as [rest'|] eqn:Ep;
        [|discriminate].
      intros H. injection H as <- <-. json_lengths. lia. }
    destruct (c =? 102)%N.
    { destruct (strip_prefix (lit "false") (c :: r)) as [rest'|] eqn:Ep;
        [|discriminate].
      intros H. injection H as <- <-. json_lengths. lia. }
    destruct (c =? 110)%N.
    { destruct (strip_prefix (lit "null") (c :: r)) as [rest'|] eqn:Ep;
        [|discriminate].
      intros H. injection H as <- <-. json_lengths. lia. }
    destruct ((c =? 45)%N || is_digit c); [|discriminate].
    destruct (json_number (c :: r)) as [[x rest']|] eqn:En; [|discriminate].
    intros H. injection H as <- <-. json_lengths. lia.
  - destruct (self GValue s) as [[v1 r]|] eqn:Ev; [|discriminate].
    apply IH in Ev.
    destruct (skip_ws r) as [|d r'] eqn:Er; [discriminate|].
    destruct (d =? 44)%N.
    { intros H. apply IH in H. json_lengths. lia. }
    destruct (d =? 93)%N; [|discriminate].
    intros H. injection H as <- <-. json_lengths. lia.
  - destruct (skip_ws s) as [|q r] eqn:Es; [discriminate|].
    destruct (q =? 34)%N; [|discriminate].
    destruct (json_chars r) as [[k r1]|] eqn:Ec; [|discriminate].
    destruct (skip_ws r1) as [|colon r2] eqn:E1; [discriminate|].
    destruct (colon =? 58)%N; [|discriminate].
    destruct (self GValue r2) as [[v1 r3]|] eqn:Ev; [|discriminate].
    apply IH in Ev.
    destruct (skip_ws r3) as [|d r4] eqn:E3; [discriminate|].
    destruct (d =? 44)%N.
    { intros H. apply IH in H. json_lengths. lia. }
    destruct (d =? 125)%N; [|discriminate].
    intros H. injection H as <- <-. json_lengths. lia.
Qed.

Lemma json_goal_consuming (fuel : nat) : consuming (json_goal fuel).
Proof.
  induction fuel as [|fuel IH]; [discriminate|].
  exact (json_step_consuming _ IH).
Qed.

(** A step only asks its nested parser about goals of smaller weight. *)
Lemma json_step_ext self1 self2 (g : goal) (s : jsstring) :
  consuming self1 ->
  (forall g' s', weight g' s' < weight g s -> self1 g' s' = self2 g' s') ->
  json_step self1 g s = json_step self2 g s.
Proof.
  intros Hc Heq. unfold json_step. destruct g as [|acc|acc].
  - destruct (skip_ws s) as [|c r] eqn:Es; [reflexivity|].
    destruct (c =? 123)%N.
    { destruct (skip_ws r) as [|d r'] eqn:Er; [reflexivity|].
      destruct (d =? 125)%N; [reflexivity|].
      apply Heq. unfold weight. json_lengths. lia. }
    destruct (c =? 91)%N; [|reflexivity].
    destruct (skip_ws r) as [|d r'] eqn:Er; [reflexivity|].
    destruct (d =? 93)%N; [reflexivity|].
    apply Heq. unfold weight. json_lengths. lia.
  - rewrite <- (Heq GValue s) by (unfold weight; lia).
    destruct (self1 GValue s) as [[v1 r]|] eqn:Ev; [|reflexivity].
    apply Hc in Ev.
    destruct (skip_ws r) as [|d r'] eqn:Er; [reflexivity|].
    destruct (d =? 44)%N; [|reflexivity].
    apply Heq. unfold weight. json_lengths. lia.
  - destruct (skip_ws s) as [|q r] eqn:Es; [reflexivity|].
    destruct (q =? 34)%N; [|reflexivity].
    destruct (json_chars r) as [[k r1]|] eqn:Ec; [|reflexivity].
    destruct (skip_ws r1) as [|colon r2] eqn:E1; [reflexivity|].
    destruct (colon =? 58)%N; [|reflexivity].
    assert (Hr2 : List.length r2 < List.length s) by (json_lengths; lia).
    rewrite <- (Heq GValue r2) by (unfold weight; lia).
    destruct (self1 GValue r2) as [[v1 r3]|] eqn:Ev; [|reflexivity].
    apply Hc in Ev.
    destruct (skip_ws r3) as [|d r4] eqn:E3; [reflexivity|].
    destruct (d =? 44)%N; [|reflexivity].
    apply Heq. unfold weight. json_lengths. lia.
Qed.

(** Fuel beyond the weight of the goal does not change the answer. *)
Lemma json_goal_more_fuel (fuel : nat) :
  forall g s, weight g s < fuel -> json_goal (S fuel) g s = json_goal fuel g s.
Proof.
  induction fuel as [|fuel IH]; intros g s Hw; [lia|].
  change (json_step (json_goal (S fuel)) g s = json_step (json_goal fuel) g s).
  apply json_step_ext; [apply json_goal_consuming|].
  intros g' s' Hw'. apply IH. lia.
Qed.

Lemma json_goal_enough (n fuel : nat) (g : goal) (s : jsstring) :
  weight g s < fuel -> json_goal (n + fuel) g s = json_goal fuel g s.
Proof.
  intros Hw. induction n as [|n IH]; [reflexivity|].
  cbn [Nat.add]. rewrite json_goal_more_fuel by lia. exact IH.
Qed.

(** [JSON_parse] gives the parser all the fuel it can use: with any fuel
    above the weight of the text the parse ends the same way. *)
Lemma JSON_parse_fuel (fuel : nat) (text : jsstring) :
  weight GValue text < fuel ->
  JSON_parse text =
    match json_goal fuel GValue text with
    | Some (v, rest) =>
        match skip_ws rest with [] => Some v | _ :: _ => None end
    | None => None
    end.
Proof.
  intros Hw. unfold JSON_parse.
  replace fuel with ((fuel - S (weight GValue text)) + S (weight GValue text))
    by lia.
  rewrite json_goal_enough by lia. reflexivity.
Qed.

End JsonFuel.

(* ================================================================= *)
(** ** The transport *)

Section Transport.

Lemma skip_ws_blank (s : jsstring) :
  forallb is_ws s = true -> forallb is_ws (skip_ws s) = true.
Proof.
  induction s as [|c s IH]; simpl; [reflexivity|].
  intros H. destruct (is_json_ws c); [|exact H].
  apply andb_true_iff in H. apply IH, H.
Qed.

Lemma ws_not_digit (c : char) : is_ws c = true -> is_digit c = false.
Proof.
  intros H. destruct (is_digit c) eqn:D; [|reflexivity].
  unfold is_digit in D. apply andb_true_iff in D. destruct D as [D1 D2].
  apply N.leb_le in D1, D2. unfold is_ws in H.
  repeat rewrite ?orb_true_iff, ?andb_true_iff in H.
  rewrite ?N.leb_le, ?N.eqb_eq in H. lia.
Qed.

(** No JSON value starts in a text that is all white space: the text ends,
    or a white-space character that JSON does not skip stands where a value
    should start. *)
Lemma json_value_blank (fuel : nat) (s : jsstring) :
  forallb is_ws s = true -> json_goal fuel GValue s = None.
Proof.
  intros H. destruct fuel as [|fuel]; [reflexivity|].
  cbn [json_goal]. unfold json_step.
  apply skip_ws_blank in H.
  destruct (skip_ws s) as [|c r]; [reflexivity|].
  simpl in H. apply andb_true_iff in H. destruct H as [Hc _].
  repeat match goal with
         | |- context [if (c =? ?k)%N then _ else _] =>
             destruct (N.eqb_spec c k) as [->|_];
             [vm_compute in Hc; discriminate|]
         end.
  rewrite (ws_not_digit _ Hc).
  destruct (N.eqb_spec c 45) as [->|_]; [vm_compute in Hc; discriminate|].
  reflexivity.
Qed.

(** [JSON.parse] rejects a text that [trim] empties. *)
Lemma JSON_parse_blank (s : jsstring) : trim s = [] -> JSON_parse s = None.
Proof.
  intros H. apply trim_nil_iff in H. unfold JSON_parse.
  now rewrite (json_value_blank _ _ H).
Qed.

(** The body kept by [xhr.onload] is the parsed text when the text is JSON
    and the text itself otherwise. *)
Lemma parse_body_spec (text : jsstring) :
  parse_body text =
    match JSON_parse text with Some v => v | None => Str text end.
Proof.
  unfold parse_body. destruct (trim text) eqn:E; [|reflexivity].
  now rewrite (JSON_parse_blank _ E).
Qed.

(** C2: a response with a status in [200,300) resolves with the status and
    the body, any other status is rejected with an [HttpStatusError] that
    carries the status and the body; in both cases the body is the parsed
    response text when it parses as JSON and the raw text otherwise.  The
    transport sends one request and completes with that outcome. *)
Theorem onload_status_and_body (status : N) (xhr_text : option jsstring) :
  let text := nullish xhr_text [] in
  let body := match JSON_parse text with Some v => v | None => Str text end in
  ((200 <= status < 300)%N ->
     onload status xhr_text = Return {| resp_status := status; data := body |})
  /\ (~ (200 <= status < 300)%N ->
        onload status xhr_text = Throw (HttpStatusError status body))
  /\ (forall url payload headers timeoutMs tr,
        postJson url payload headers timeoutMs (OnLoad status xhr_text) tr =
          (onload status xhr_text,
           tr ++ [XhrSend url payload headers timeoutMs])).
Proof.
  cbv zeta. split; [|split].
  - unfold onload. rewrite parse_body_spec.
    intros [H1 H2]. apply N.leb_le in H1. apply N.ltb_lt in H2.
    now rewrite H1, H2.
  - unfold onload. rewrite parse_body_spec. intros H.
    destruct (200 <=? status)%N eqn:H1; [|reflexivity].
    destruct (status <? 300)%N eqn:H2; [|reflexivity].
    exfalso. apply H. split; [now apply N.leb_le | now apply N.ltb_lt].
  - reflexivity.
Qed.

Lemma onload_status_and_body_witness :
  onload 200 (Some text_no_choices) =
    Return {| resp_status := 200; data := body_no_choices |}
  /\ onload 429 (Some text_rate_limited) =
       Throw (HttpStatusError 429 body_rate_limited)
  /\ onload 502 (Some (lit "Bad Gateway")) =
       Throw (HttpStatusError 502 (Str (lit "Bad Gateway"))).
Proof.
  split; [|split].
  - apply (proj1 (onload_status_and_body 200 (Some text_no_choices))). lia.
  - apply (proj1 (proj2 (onload_status_and_body 429 (Some text_rate_limited)))).
    lia.
  - apply (proj1 (proj2 (onload_status_and_body 502 (Some (lit "Bad Gateway"))))).
    lia.
Defined.

End Transport.

(* ================================================================= *)
(** ** The error classifier *)

Section Classifier.

(** C3: the message for a status failure is "API Error", the status and
    the detail the specification names; a 429 response with the body
    [{"error":{"message":"rate limited"}}] gives
    "API Error 429: rate limited". *)
Theorem errorMsg_status_error (status : N) (body : value) :
  errorMsg (HttpStatusError status body) =
    lit "API Error " ++ toString_N status ++ lit ": " ++ status_detail body
  /\ errorMsg (HttpStatusError 429 body_rate_limited) =
       lit "API Error 429: rate limited"
  /\ JSON_parse text_rate_limited = Some body_rate_limited.
Proof.
  split; [|split; vm_compute; reflexivity].
  unfold errorMsg, status_detail. do 3 f_equal.
  destruct body as [| |b|x|s|items|fields];
    cbn [truthy typeof type_tag_eqb andb get nullish]; try reflexivity.
  - destruct b; reflexivity.
  - destruct x; reflexivity.
  - destruct s; reflexivity.
  - destruct (lookup (lit "error") fields) as [| |b|x|s|items|err];
      cbn [truthy typeof type_tag_eqb andb get nullish]; try reflexivity.
    + destruct b; reflexivity.
    + destruct x; reflexivity.
    + destruct s; reflexivity.
    + destruct (lookup (lit "message") err); reflexivity.
Qed.

End Classifier.

(* ================================================================= *)
(** ** The prompt assembler *)

Section PromptAssembler.

(** A replacement text without a dollar sign stands for itself. *)
Lemma GetSubstitution_plain (t matched before after : jsstring) :
  dollar_free t = true -> GetSubstitution t matched before after = t.
Proof.
  induction t as [|c t IH]; simpl; [reflexivity|].
  intros H. apply andb_true_iff in H. destruct H as [Hc Ht].
  apply negb_true_iff in Hc. rewrite Hc. now rewrite (IH Ht).
Qed.

Lemma replace_scan_ext (pat : jsstring) (f g : jsstring -> jsstring -> jsstring) :
  (forall b a, f b a = g b a) ->
  forall s k before,
    replace_scan pat f k before s = replace_scan pat g k before s.
Proof.
  intros Hfg. induction s as [|c s IH]; intros k before; simpl;
    [reflexivity|].
  destruct k; [|apply IH].
  destruct (strip_prefix pat (c :: s)); rewrite IH; [now rewrite Hfg|reflexivity].
Qed.

(** Passing over the rest of a match moves it to the text before. *)
Lemma replace_scan_skip (pat : jsstring) (f : jsstring -> jsstring -> jsstring)
    (p rest : jsstring) :
  forall before,
    replace_scan pat f (List.length p) before (p ++ rest) =
    replace_scan pat f 0 (before ++ p) rest.
Proof.
  induction p as [|c p IH]; intros before; simpl.
  - now rewrite app_nil_r.
  - rewrite IH, <- app_assoc. reflexivity.
Qed.

(** With a literal replacement the scan is the plain substitution. *)
Lemma replace_scan_substitute (pat repl : jsstring) :
  pat <> [] ->
  forall fuel s before,
    List.length s <= fuel ->
    replace_scan pat (fun _ _ => repl) 0 before s =
    substitute_fuel fuel pat repl s.
Proof.
  intros Hpat. induction fuel as [|fuel IH]; intros s before Hlen.
  - destruct s; [reflexivity|simpl in Hlen; lia].
  - destruct s as [|c r]; [reflexivity|].
    cbn [replace_scan substitute_fuel].
    destruct (strip_prefix pat (c :: r)) as [rest|] eqn:E.
    + apply strip_prefix_Some in E.
      destruct pat as [|x pat']; [contradiction|].
      simpl in E. injection E as Hx Hr. subst c r.
      replace (List.length (x :: pat') - 1) with (List.length pat')
        by (simpl; lia).
      rewrite replace_scan_skip.
      f_equal. apply IH. simpl in Hlen. rewrite length_app in Hlen. lia.
    + f_equal. apply IH. simpl in Hlen. lia.
Qed.

(** When the replacement has no dollar sign, [replace] with the global
    pattern is the plain substitution of every occurrence. *)
Lemma replace_global_plain (pat repl s : jsstring) :
  pat <> [] -> dollar_free repl = true ->
  replace_global pat repl s = substitute_all pat repl s.
Proof.
  intros Hpat Hrepl. unfold replace_global, substitute_all.
  rewrite (replace_scan_ext pat (GetSubstitution repl pat) (fun _ _ => repl)).
  - now apply replace_scan_substitute.
  - intros b a. now apply GetSubstitution_plain.
Qed.

(** X19: for a selection without a dollar sign, the user content is the
    prompt with every placeholder replaced by the selection when the
    trimmed prompt holds one, the prompt, two newlines and the selection
    when it holds none, and the selection when the prompt is absent or
    blank. *)
Lemma userContent_dollar_free (inputText : jsstring)
    (rawUserPrompt : option jsstring) :
  dollar_free inputText = true ->
  userContent inputText rawUserPrompt = userContent_spec inputText rawUserPrompt.
Proof.
  intros H. unfold userContent, userContent_spec, trimmed_nonempty, placeholder.
  destruct rawUserPrompt as [raw|]; [|reflexivity].
  destruct (trim raw) as [|c r]; [reflexivity|].
  destruct (includes (c :: r) (lit "{{text}}")); [|reflexivity].
  apply replace_global_plain; [discriminate|exact H].
Qed.

(** The cases that do not substitute hold for every selection. *)
Lemma userContent_without_placeholder (inputText : jsstring)
    (rawUserPrompt : option jsstring) :
  match rawUserPrompt with
  | None => userContent inputText rawUserPrompt = inputText
  | Some raw =>
      (trim raw = [] -> userContent inputText rawUserPrompt = inputText)
      /\ (trim raw <> [] -> includes (trim raw) (lit "{{text}}") = false ->
          userContent inputText rawUserPrompt =
            trim raw ++ [newline; newline] ++ inputText)
  end.
Proof.
  unfold userContent, trimmed_nonempty, placeholder.
  destruct rawUserPrompt as [raw|]; [|reflexivity].
  destruct (trim raw) as [|c r]; split; try reflexivity; try contradiction;
    try discriminate.
  intros _ ->. reflexivity.
Qed.

(** The examples of the specification. *)
Lemma userContent_examples :
  userContent (lit "hello") (Some (lit "Translate: {{text}}!")) =
    lit "Translate: hello!"
  /\ userContent (lit "hello") (Some []) = lit "hello"
  /\ userContent (lit "hello") None = lit "hello"
  /\ userContent (lit "hello") (Some (lit "Summarize this")) =
       lit "Summarize this" ++ [newline; newline] ++ lit "hello".
Proof. repeat split; vm_compute; reflexivity. Qed.

(** C5: at the selection [$$x$$] with the prompt [Explain: {{text}}] the
    action produces [Explain: $x$], where substituting the selection for
    the placeholder gives [Explain: $$x$$]: [replace] reads [$$] in the
    replacement text as one dollar sign. *)
Theorem userContent_dollar_pattern :
  userContent (lit "$$x$$") (Some (lit "Explain: {{text}}")) =
    lit "Explain: $x$"
  /\ userContent_spec (lit "$$x$$") (Some (lit "Explain: {{text}}")) =
       lit "Explain: $$x$$"
  /\ userContent (lit "$&") (Some (lit "Q: {{text}}")) = lit "Q: {{text}}".
Proof. repeat split; vm_compute; reflexivity. Qed.

(** C7: the message list holds the system message once when the trimmed
    system prompt is not empty (and then first, with the trimmed prompt as
    content) and never otherwise, and exactly one user message, which is
    the last element. *)
Theorem messages_shape (options : ExtensionOptions) (inputText : jsstring) :
  let ms := messages options inputText in
  let sys := match systemPrompt options with
             | Some raw => trim raw
             | None => []
             end in
  (sys <> [] ->
     count_role system ms = 1
     /\ hd_error ms = Some {| msg_role := system; content := sys |})
  /\ (sys = [] -> count_role system ms = 0)
  /\ count_role user ms = 1
  /\ last ms {| msg_role := system; content := [] |} =
       {| msg_role := user;
          content := userContent inputText (userPrompt options) |}.
Proof.
  cbv zeta. unfold messages, trimmed_nonempty.
  destruct (systemPrompt options) as [raw|].
  - destruct (trim raw) as [|c r]; repeat split; try reflexivity;
      try contradiction; try discriminate.
  - repeat split; try reflexivity; try contradiction.
Qed.

Lemma messages_shape_witness :
  count_role system (messages sample_options (lit "hello")) = 1
  /\ hd_error (messages sample_options (lit "hello")) =
       Some {| msg_role := system; content := lit "Be brief." |}.
Proof.
  apply (proj1 (messages_shape sample_options (lit "hello"))).
  vm_compute. discriminate.
Defined.

End PromptAssembler.

(* ================================================================= *)
(** ** The output router and the whole action *)

Section Pipeline.

Lemma route_sink (mode reply input_text : jsstring) (tr : list effect) :
  route mode reply input_text tr =
    (Return tt, tr ++ [sink_of mode reply input_text]).
Proof.
  unfold route, sink_of.
  destruct (str_eqb mode (lit "copy")); [reflexivity|].
  destruct (str_eqb mode (lit "show")); [reflexivity|].
  destruct (str_eqb mode (lit "replace")); reflexivity.
Qed.

(** Without an API key [run] throws before anything else happens. *)
Lemma run_without_key (input_text : jsstring) (options : ExtensionOptions)
    (net : xhr_event) (tr : list effect) :
  trim (nullish (apikey options) []) = [] ->
  run input_text options net tr =
    (Throw (Error (lit "Settings error: API Key is required")), tr).
Proof. unfold run. now intros ->. Qed.

(** With an API key [run] sends its request; then it either hands the
    reply to one sink, or prints the classified message and throws it. *)
Lemma run_with_key (input_text : jsstring) (options : ExtensionOptions)
    (net : xhr_event) (tr : list effect) :
  trim (nullish (apikey options) []) <> [] ->
  run input_text options net tr =
    match pipeline_outcome net with
    | Return reply =>
        (Return tt,
         tr ++ [request_of input_text options;
                sink_of (responseHandling options) reply input_text])
    | Throw e =>
        (Throw (Error (errorMsg e)),
         tr ++ [request_of input_text options; Print (errorMsg e)])
    end.
Proof.
  intros Hkey. unfold run, request_of.
  destruct (trim (nullish (apikey options) [])) as [|k ks] eqn:Ek;
    [contradiction|].
  cbv beta iota zeta delta
    [try_catch bind postJson emit lift throw pipeline_outcome].
  destruct net as [status xhr_text| |]; cbv beta iota.
  - destruct (onload status xhr_text) as [response|e]; cbv beta iota.
    + destruct (extractReply (data response)) as [reply|e]; cbv beta iota.
      * rewrite route_sink, <- app_assoc. reflexivity.
      * rewrite <- app_assoc. reflexivity.
    + rewrite <- app_assoc. reflexivity.
  - rewrite <- app_assoc. reflexivity.
  - rewrite <- app_assoc. reflexivity.
Qed.

(** C6: the router returns after one sink call: [copy] calls the clipboard
    sink with the reply, [show] the preview sink with the reply and the
    preview flag, [replace] the paste sink with the reply, and any other
    mode the paste sink with the original input, two newlines and the
    reply; [bogus] behaves as [append]; a successful [run] makes that one
    sink call after its request. *)
Theorem route_one_sink (mode reply input_text : jsstring) (tr : list effect) :
  (mode = lit "copy" ->
     route mode reply input_text tr = (Return tt, tr ++ [CopyText reply]))
  /\ (mode = lit "show" ->
        route mode reply input_text tr = (Return tt, tr ++ [ShowText reply true]))
  /\ (mode = lit "replace" ->
        route mode reply input_text tr = (Return tt, tr ++ [PasteText reply]))
  /\ (mode <> lit "copy" -> mode <> lit "show" -> mode <> lit "replace" ->
        route mode reply input_text tr =
          (Return tt,
           tr ++ [PasteText (input_text ++ [newline; newline] ++ reply)]))
  /\ route (lit "bogus") reply input_text tr =
       route (lit "append") reply input_text tr
  /\ (forall options net,
        trim (nullish (apikey options) []) <> [] ->
        responseHandling options = mode ->
        pipeline_outcome net = Return reply ->
        exists sink,
          route mode reply input_text tr = (Return tt, tr ++ [sink])
          /\ run input_text options net tr =
               (Return tt, tr ++ [request_of input_text options; sink])).
Proof.
  repeat split.
  - intros ->. reflexivity.
  - intros ->. reflexivity.
  - intros ->. reflexivity.
  - intros H1 H2 H3. unfold route.
    now rewrite (str_eqb_neq _ _ H1), (str_eqb_neq _ _ H2), (str_eqb_neq _ _ H3).
  - intros options net Hkey Hmode Hout.
    exists (sink_of mode reply input_text).
    rewrite (run_with_key _ _ _ _ Hkey), Hout, Hmode, route_sink. auto.
Qed.

Lemma route_one_sink_witness :
  route (lit "copy") (lit "X") (lit "hello") [] =
    (Return tt, [CopyText (lit "X")])
  /\ route (lit "bogus") (lit "X") (lit "hello") [] =
       (Return tt, [PasteText (lit "hello" ++ [newline; newline] ++ lit "X")])
  /\ exists sink,
       route (lit "copy") (lit "X") (lit " hello ") [] = (Return tt, [sink])
       /\ run (lit " hello ") sample_options (OnLoad 200 (Some text_reply_X)) [] =
            (Return tt, [request_of (lit " hello ") sample_options; sink]).
Proof.
  split; [|split].
  - apply (proj1 (route_one_sink (lit "copy") (lit "X") (lit "hello") [])).
    reflexivity.
  - apply (proj1 (proj2 (proj2 (proj2
             (route_one_sink (lit "bogus") (lit "X") (lit "hello") [])))));
      discriminate.
  - apply (proj2 (proj2 (proj2 (proj2 (proj2
             (route_one_sink (lit "copy") (lit "X") (lit " hello ") [])))))
             sample_options (OnLoad 200 (Some text_reply_X))).
    + vm_compute. discriminate.
    + reflexivity.
    + vm_compute. reflexivity.
Defined.

(** C4, as the code has it: a run that fails for want of an API key throws
    the settings message and prints nothing; every other failed run sends
    its request, prints one message, the classified failure of the
    pipeline, as its last host call, and throws an [Error] with that same
    message. *)
Theorem run_failure_message (input_text : jsstring) (options : ExtensionOptions)
    (net : xhr_event) (tr0 tr : list effect) (e : exception) :
  run input_text options net tr0 = (Throw e, tr) ->
  failure_report input_text options net tr0 e tr.
Proof.
  intros Hrun. unfold failure_report.
  destruct (trim (nullish (apikey options) [])) as [|k ks] eqn:Ek.
  - left. rewrite (run_without_key _ _ _ _ Ek) in Hrun.
    injection Hrun as <- <-. auto.
  - right. split; [discriminate|].
    rewrite run_with_key in Hrun by (rewrite Ek; discriminate).
    destruct (pipeline_outcome net) as [reply|cause]; [discriminate|].
    injection Hrun as <- <-. exists cause. auto.
Qed.

(** A run that times out: the request, one print, and the same message
    thrown. *)
Lemma run_failure_message_witness :
  failure_report (lit "hello") sample_options OnTimeout []
    (Error (lit "Network/Error: Request timeout"))
    [request_of (lit "hello") sample_options;
     Print (lit "Network/Error: Request timeout")].
Proof.
  apply (run_failure_message (lit "hello") sample_options OnTimeout []).
  vm_compute. reflexivity.
Defined.

(** Without an API key the run throws the settings message and prints
    nothing, and the message thrown is not one the classifier produced and
    printed. *)
Lemma missing_key_is_not_printed :
  let '(outcome, trace) := run (lit "hello") no_key_options OnTimeout [] in
  outcome = Throw (Error (lit "Settings error: API Key is required"))
  /\ trace = []
  /\ ~ (exists cause,
          outcome = Throw (Error (errorMsg cause))
          /\ In (Print (errorMsg cause)) trace).
Proof.
  vm_compute. split; [reflexivity|]. split; [reflexivity|].
  intros [cause [_ []]].
Qed.

(** C10: when a response with a status in [200,300) carries a body that
    the reply extractor rejects, the message printed and thrown is the
    extractor's message behind the prefix "Network/Error: "; the body
    [{"choices":[]}] gives
    "Network/Error: API Error: no completion choices returned". *)
Theorem rejected_body_message (input_text : jsstring)
    (options : ExtensionOptions) (status : N) (xhr_text : option jsstring)
    (tr : list effect) (e : exception) :
  trim (nullish (apikey options) []) <> [] ->
  (200 <= status < 300)%N ->
  extractReply (parse_body (nullish xhr_text [])) = Throw e ->
  (exists m,
     e = Error m
     /\ run input_text options (OnLoad status xhr_text) tr =
          (Throw (Error (lit "Network/Error: " ++ m)),
           tr ++ [request_of input_text options;
                  Print (lit "Network/Error: " ++ m)]))
  /\ run input_text options (OnLoad 200 (Some text_no_choices)) tr =
       (Throw (Error (lit "Network/Error: API Error: no completion choices returned")),
        tr ++ [request_of input_text options;
               Print (lit "Network/Error: API Error: no completion choices returned")]).
Proof.
  intros Hkey [H1 H2] He. split.
  - destruct (extractReply_Throw_inv _ _ He) as [m ->]. exists m.
    split; [reflexivity|].
    rewrite (run_with_key _ _ _ _ Hkey). unfold pipeline_outcome, onload.
    apply N.leb_le in H1. apply N.ltb_lt in H2. rewrite H1, H2. cbn [andb data].
    rewrite He. reflexivity.
  - rewrite (run_with_key _ _ _ _ Hkey).
    replace (pipeline_outcome (OnLoad 200 (Some text_no_choices)))
      with (@Throw jsstring (Error (lit "API Error: no completion choices returned")))
      by (vm_compute; reflexivity).
    reflexivity.
Qed.

Lemma rejected_body_message_witness :
  run (lit "hello") sample_options (OnLoad 200 (Some text_no_choices)) [] =
    (Throw (Error (lit "Network/Error: API Error: no completion choices returned")),
     [request_of (lit "hello") sample_options;
      Print (lit "Network/Error: API Error: no completion choices returned")]).
Proof.
  refine (proj2 (rejected_body_message (lit "hello") sample_options 200
                   (Some text_no_choices) []
                   (Error (lit "API Error: no completion choices returned"))
                   _ _ _)).
  - vm_compute. discriminate.
  - lia.
  - vm_compute. reflexivity.
Defined.

End Pipeline.

(* ================================================================= *)
(** ** The option normalizer *)

Section Normalizer.

Lemma SFcompare_antisym (x y : number) :
  SFcompare y x = option_map CompOpp (SFcompare x y).
Proof.
  destruct x as [sx|sx| |sx mx ex], y as [sy|sy| |sy my ey]; simpl;
    try reflexivity;
    try (destruct sx; reflexivity); try (destruct sy; reflexivity);
    try (destruct sx, sy; reflexivity).
  destruct sx, sy; try reflexivity;
    rewrite (Z.compare_antisym ex ey); destruct (ex ?= ey)%Z; simpl;
    try reflexivity;
    change (Pos.compare_cont Eq my mx) with (Pos.compare my mx);
    change (Pos.compare_cont Eq mx my) with (Pos.compare mx my);
    rewrite (Pos.compare_antisym mx my); destruct (mx ?= my)%positive;
    reflexivity.
Qed.

Lemma SFltb_SFleb (x y : number) : SFltb x y = true -> SFleb x y = true.
Proof.
  unfold SFltb, SFleb. destruct (SFcompare x y) as [[]|]; congruence.
Qed.

(** [not (x < y)] for numbers that are not NaN means [y <= x]. *)
Lemma SFltb_false_SFleb (x y : number) :
  isNaN x = false -> isNaN y = false ->
  SFltb x y = false -> SFleb y x = true.
Proof.
  unfold SFltb, SFleb. rewrite (SFcompare_antisym x y).
  destruct x, y; try discriminate; intros _ _;
    destruct (SFcompare _ _) as [[]|] eqn:E; simpl; try congruence;
    simpl in E; try discriminate; destruct s; try discriminate;
    destruct s0; discriminate.
Qed.

Lemma of_Z_0 : of_Z 0 false = S754_zero false.
Proof. reflexivity. Qed.

Lemma of_Z_2 : of_Z 2 false = S754_finite false 4503599627370496 (-51).
Proof. vm_compute. reflexivity. Qed.

(** [Math.min(a, x)] and [Math.max(a, x)] when neither is NaN and [a] is
    a finite number other than a zero. *)
Lemma Math_min_pair (a x : number) :
  isNaN a = false -> isNaN x = false ->
  is_pzero a = false -> num_lt a pInfinity = true ->
  Math_min [a; x] = if num_lt x a then x else a.
Proof.
  intros Ha Hx Hz Hinf. unfold Math_min. cbn [existsb].
  rewrite Ha, Hx. cbn [orb fold_left].
  replace (min_step pInfinity a) with a.
  - unfold min_step. now rewrite Hz, andb_false_r.
  - unfold min_step. rewrite Hinf. cbn [is_pzero pInfinity].
    now rewrite andb_false_r.
Qed.

Lemma Math_max_pair (a x : number) :
  isNaN a = false -> isNaN x = false ->
  is_nzero a = false -> num_gt a nInfinity = true ->
  Math_max [a; x] = if num_gt x a then x else a.
Proof.
  intros Ha Hx Hz Hinf. unfold Math_max. cbn [existsb].
  rewrite Ha, Hx. cbn [orb fold_left].
  replace (max_step nInfinity a) with a.
  - unfold max_step. now rewrite Hz, andb_false_r.
  - unfold max_step. rewrite Hinf. cbn [is_nzero nInfinity].
    now rewrite andb_false_r.
Qed.

(** [Math.max(0, Math.min(2, x))] for a number that is not NaN. *)
Lemma max_min_eval (x : number) :
  isNaN x = false ->
  Math_max [of_Z 0 false; Math_min [of_Z 2 false; x]] =
    let y := if num_lt x (of_Z 2 false) then x else of_Z 2 false in
    if num_gt y (of_Z 0 false) then y else of_Z 0 false.
Proof.
  intros Hx. cbv zeta.
  rewrite (Math_min_pair (of_Z 2 false) x) by (assumption || reflexivity).
  apply Math_max_pair; try reflexivity.
  destruct (num_lt x (of_Z 2 false)); [assumption|reflexivity].
Qed.

Lemma SFcompare_finite_Eq (m m' : positive) (e e' : Z) :
  SFcompare (S754_finite false m e) (S754_finite false m' e') = Some Eq ->
  e = e' /\ m = m'.
Proof.
  simpl. destruct (e ?= e')%Z eqn:Ee; try discriminate.
  intros H. injection H as H. split.
  - now apply Z.compare_eq.
  - now apply Pos.compare_eq.
Qed.

(** The value of [parseTemperature] on a parsed number: it is numerically
    the number clamped into [0, 2], and the same Number unless the parsed
    number is -0 (which comes back as +0). *)
Lemma max_min_clamp (x : number) :
  isNaN x = false ->
  let r := Math_max [of_Z 0 false; Math_min [of_Z 2 false; x]] in
  num_eq r (clamp_0_2 x) = true
  /\ (is_nzero x = false -> r = clamp_0_2 x).
Proof.
  intros Hx. cbv zeta. rewrite (max_min_eval x Hx). cbv zeta.
  unfold clamp_0_2, num_eq, num_lt, num_gt, SFltb, SFeqb.
  rewrite of_Z_0, of_Z_2.
  destruct x as [s|s| |s m e]; try discriminate.
  - destruct s; simpl; split; try reflexivity; discriminate.
  - destruct s; simpl; split; reflexivity.
  - destruct s.
    + simpl. split; reflexivity.
    + rewrite (SFcompare_antisym (S754_finite false m e)
                 (S754_finite false 4503599627370496 (-51))).
      destruct (SFcompare (S754_finite false m e)
                  (S754_finite false 4503599627370496 (-51)))
        as [[]|] eqn:E; try discriminate.
      * apply SFcompare_finite_Eq in E. destruct E as [-> ->].
        simpl. split; reflexivity.
      * cbn [option_map CompOpp]. cbv iota.
        change (SFcompare (S754_zero false) (S754_finite false m e))
          with (Some Lt).
        change (SFcompare (S754_finite false m e) (S754_zero false))
          with (Some Gt).
        cbv iota. split; [|reflexivity].
        simpl. rewrite Z.compare_refl.
        change (Pos.compare_cont Eq m m) with (Pos.compare m m).
        now rewrite Pos.compare_refl.
      * simpl. split; reflexivity.
Qed.

(** C8: [parseTemperature] returns a number in [0, 2]; it returns 1.0
    when the input is absent or does not parse as a float; otherwise it
    returns the parsed value clamped into [0, 2] (with +0 for -0). *)
Theorem parseTemperature_clamped (raw : option jsstring) :
  let parsed := parseFloat (nullish raw (lit "1")) in
  let r := parseTemperature raw in
  num_le (of_Z 0 false) r && num_le r (of_Z 2 false) = true
  /\ (raw = None -> r = of_Z 1 false)
  /\ (isNaN parsed = true -> r = of_Z 1 false)
  /\ (isNaN parsed = false ->
        num_eq r (clamp_0_2 parsed) = true
        /\ (is_nzero parsed = false -> r = clamp_0_2 parsed)).
Proof.
  cbv zeta. unfold parseTemperature, DEFAULT_TEMPERATURE_text,
    DEFAULT_TEMPERATURE.
  split; [|split; [|split]].
  - destruct (isNaN (parseFloat _)) eqn:En; [reflexivity|].
    rewrite (max_min_eval _ En). cbv zeta. unfold num_le.
    destruct (num_lt _ (of_Z 2 false)) eqn:L2.
    + destruct (num_gt _ (of_Z 0 false)) eqn:G0.
      * apply andb_true_iff. split; apply SFltb_SFleb; assumption.
      * reflexivity.
    + reflexivity.
  - intros ->. vm_compute. reflexivity.
  - intros ->. reflexivity.
  - intros En. rewrite En. exact (max_min_clamp _ En).
Qed.

Lemma parseTemperature_clamped_witness :
  parseTemperature None = of_Z 1 false
  /\ parseTemperature (Some (lit "hot")) = of_Z 1 false
  /\ parseTemperature (Some (lit "3.5")) = of_Z 2 false
  /\ parseTemperature (Some (lit "-0.25")) = of_Z 0 false.
Proof.
  split; [|split; [|split]].
  - apply (proj1 (proj2 (parseTemperature_clamped None))). reflexivity.
  - apply (proj1 (proj2 (proj2 (parseTemperature_clamped (Some (lit "hot")))))).
    reflexivity.
  - apply (proj2 (proj2 (proj2 (proj2
             (parseTemperature_clamped (Some (lit "3.5"))))) eq_refl)).
    reflexivity.
  - apply (proj2 (proj2 (proj2 (proj2
             (parseTemperature_clamped (Some (lit "-0.25"))))) eq_refl)).
    reflexivity.
Defined.

(** *** Rounding an integer to a Number *)

Lemma iter_pos_invariant {A} (P : A -> Prop) (f : A -> A) :
  (forall x, P x -> P (f x)) ->
  forall p x, P x -> P (iter_pos f p x).
Proof.
  intros Hf. induction p as [p IH|p IH|]; intros x Hx; simpl; auto.
Qed.

Lemma shr_1_nonneg (mrs : shr_record) :
  (0 <= shr_m mrs)%Z -> (0 <= shr_m (shr_1 mrs))%Z.
Proof.
  destruct mrs as [m r s]. destruct m as [|p|p]; simpl;
    try destruct p; simpl; lia.
Qed.

Lemma shr_nonneg (mrs : shr_record) (e n : Z) :
  (0 <= shr_m mrs)%Z -> (0 <= shr_m (fst (shr mrs e n)))%Z.
Proof.
  intros H. unfold shr. destruct n; simpl; try exact H.
  apply (iter_pos_invariant (fun x => 0 <= shr_m x)%Z); [|exact H].
  apply shr_1_nonneg.
Qed.

Lemma shr_exponent (mrs : shr_record) (e n : Z) :
  (e <= snd (shr mrs e n))%Z.
Proof. unfold shr. destruct n; simpl; lia. Qed.

Lemma shr_record_of_loc_m (m : Z) (l : location) :
  shr_m (shr_record_of_loc m l) = m.
Proof. destruct l as [|[]]; reflexivity. Qed.

Lemma round_nearest_even_nonneg (m : Z) (l : location) :
  (0 <= m)%Z -> (0 <= round_nearest_even m l)%Z.
Proof.
  destruct l as [|[]]; simpl; try destruct (Z.even m); lia.
Qed.

(** Rounding a non-negative mantissa at a non-negative exponent gives a
    whole number or overflows. *)
Lemma binary_round_aux_integer (sx : bool) (mx ex : Z) (lx : location) :
  (0 <= mx)%Z -> (0 <= ex)%Z ->
  is_integer (binary_round_aux prec emax sx mx ex lx) = true
  \/ binary_round_aux prec emax sx mx ex lx = S754_infinity sx.
Proof.
  intros Hm He. unfold binary_round_aux, shr_fexp.
  set (n1 := (fexp prec emax (Zdigits2 mx + ex) - ex)%Z).
  pose proof (shr_exponent (shr_record_of_loc mx lx) ex n1) as He1.
  pose proof (shr_nonneg (shr_record_of_loc mx lx) ex n1) as Hm1.
  rewrite shr_record_of_loc_m in Hm1. specialize (Hm1 Hm).
  destruct (shr (shr_record_of_loc mx lx) ex n1) as [mrs1 e1].
  cbn [fst snd] in He1, Hm1.
  set (m2 := round_nearest_even (shr_m mrs1) (loc_of_shr_record mrs1)).
  assert (Hm2 : (0 <= m2)%Z) by (apply round_nearest_even_nonneg; exact Hm1).
  set (n2 := (fexp prec emax (Zdigits2 m2 + e1) - e1)%Z).
  pose proof (shr_exponent (shr_record_of_loc m2 loc_Exact) e1 n2) as He2.
  pose proof (shr_nonneg (shr_record_of_loc m2 loc_Exact) e1 n2) as Hm3.
  rewrite shr_record_of_loc_m in Hm3. specialize (Hm3 Hm2).
  destruct (shr (shr_record_of_loc m2 loc_Exact) e1 n2) as [mrs2 e2].
  cbn [fst snd] in He2, Hm3.
  destruct (shr_m mrs2) as [|p|p].
  - left. reflexivity.
  - destruct (e2 <=? emax - prec)%Z; [left|right; reflexivity].
    cbn [is_integer]. apply orb_true_iff. left. apply Z.leb_le. lia.
  - lia.
Qed.

Lemma digits2_pos_iter_xO (m k : positive) :
  digits2_pos (Pos.iter xO m k) = (digits2_pos m + k)%positive.
Proof.
  induction k as [|k IH] using Pos.peano_ind.
  - simpl. now rewrite Pos.add_1_r.
  - rewrite Pos.iter_succ. simpl. rewrite IH. now rewrite Pos.add_succ_r.
Qed.

Lemma iter_xO_value (m k : positive) :
  Z.pos (Pos.iter xO m k) = (Z.pos m * 2 ^ Z.pos k)%Z.
Proof.
  induction k as [|k IH] using Pos.peano_ind.
  - simpl. lia.
  - rewrite Pos.iter_succ, Pos2Z.inj_succ, Z.pow_succ_r by lia.
    rewrite Pos2Z.inj_xO, IH. lia.
Qed.

(** A mantissa shifted left to its canonical exponent is kept as it is. *)
Lemma binary_round_aux_aligned (sx : bool) (m k : positive) :
  fexp prec emax (Z.pos (digits2_pos m)) = Z.neg k ->
  binary_round_aux prec emax sx (Z.pos (Pos.iter xO m k)) (Z.neg k) loc_Exact =
    S754_finite sx (Pos.iter xO m k) (Z.neg k).
Proof.
  intros Hf. unfold binary_round_aux, shr_fexp.
  cbn [Zdigits2]. rewrite digits2_pos_iter_xO.
  replace (Z.pos (digits2_pos m + k) + Z.neg k)%Z with (Z.pos (digits2_pos m))
    by lia.
  rewrite Hf, Z.sub_diag. cbn [shr shr_record_of_loc shr_m loc_of_shr_record
                                 round_nearest_even Zdigits2].
  rewrite digits2_pos_iter_xO.
  replace (Z.pos (digits2_pos m + k) + Z.neg k)%Z with (Z.pos (digits2_pos m))
    by lia.
  rewrite Hf, Z.sub_diag. cbn [shr shr_record_of_loc shr_m].
  replace (Z.neg k <=? emax - prec)%Z with true; [reflexivity|].
  symmetry. apply Z.leb_le. unfold emax, prec. lia.
Qed.

(** The Number for an integer is a whole number or an infinity. *)
Lemma binary_round_integer (sx : bool) (m : positive) :
  is_integer (binary_round prec emax sx m 0) = true
  \/ binary_round prec emax sx m 0 = S754_infinity sx.
Proof.
  unfold binary_round, shl_align. rewrite Z.add_0_r, Z.sub_0_r.
  destruct (fexp prec emax (Z.pos (digits2_pos m))) as [|f|k] eqn:Hf.
  - apply binary_round_aux_integer; lia.
  - apply binary_round_aux_integer; lia.
  - left. rewrite (binary_round_aux_aligned sx m k Hf).
    cbn [is_integer]. apply orb_true_iff. right.
    rewrite iter_xO_value. cbn [Z.opp]. apply Z.eqb_eq.
    apply Z.mod_mul. lia.
Qed.

Lemma of_Z_integer (z : Z) (neg0 : bool) :
  is_integer (of_Z z neg0) = true
  \/ exists s, of_Z z neg0 = S754_infinity s.
Proof.
  unfold of_Z, binary_normalize. destruct z as [|m|m].
  - left. reflexivity.
  - destruct (binary_round_integer false m) as [H|H]; [now left|right; eauto].
  - destruct (binary_round_integer true m) as [H|H]; [now left|right; eauto].
Qed.

(** [parseInt] returns NaN or the Number for an integer. *)
Lemma parseInt10_cases (s : jsstring) :
  parseInt10 s = NaN \/ exists z neg0, parseInt10 s = of_Z z neg0.
Proof.
  unfold parseInt10. destruct (take_sign (trimStart s)) as [neg r].
  destruct (span is_digit r) as [ds rest].
  destruct ds as [|d ds]; [now left|right]. eauto.
Qed.

(** C9, as the code has it: [parseMaxTokens] returns a number that is at
    least 1 and is a whole number or +Infinity; it returns 1024 when the
    input is absent, does not parse as an integer or parses to a value
    below 1; otherwise it returns the parsed value, whatever its size. *)
Theorem parseMaxTokens_at_least_one (raw : option jsstring) :
  let parsed := parseInt10 (nullish raw (lit "1024")) in
  let r := parseMaxTokens raw in
  num_le (of_Z 1 false) r = true
  /\ (is_integer r = true \/ r = pInfinity)
  /\ (raw = None -> r = of_Z 1024 false)
  /\ (isNaN parsed = true \/ num_lt parsed (of_Z 1 false) = true ->
        r = of_Z 1024 false)
  /\ (isNaN parsed = false -> num_lt parsed (of_Z 1 false) = false ->
        r = parsed).
Proof.
  cbv zeta. unfold parseMaxTokens, DEFAULT_MAX_TOKENS_text, DEFAULT_MAX_TOKENS.
  set (parsed := parseInt10 (nullish raw (lit "1024"))).
  split; [|split; [|split; [|split]]].
  - destruct (isNaN parsed) eqn:En; [reflexivity|].
    destruct (num_lt parsed (of_Z 1 false)) eqn:L; [reflexivity|].
    cbn [orb]. apply SFltb_false_SFleb; [exact En|reflexivity|exact L].
  - destruct (isNaN parsed) eqn:En; [left; reflexivity|].
    destruct (num_lt parsed (of_Z 1 false)) eqn:L; [left; reflexivity|].
    cbn [orb].
    destruct (parseInt10_cases (nullish raw (lit "1024"))) as [H|[z [b H]]];
      fold parsed in H.
    + rewrite H in En. discriminate.
    + destruct (of_Z_integer z b) as [Hi|[sg Hs]]; rewrite <- H in *.
      * now left.
      * right. rewrite Hs in L |- *. destruct sg; [discriminate|reflexivity].
  - intros Hraw. subst raw. reflexivity.
  - intros [H|H]; rewrite H; [|rewrite orb_true_r]; reflexivity.
  - intros En L. rewrite En, L. reflexivity.
Qed.

Lemma parseMaxTokens_at_least_one_witness :
  parseMaxTokens None = of_Z 1024 false
  /\ parseMaxTokens (Some (lit "0")) = of_Z 1024 false
  /\ parseMaxTokens (Some (lit "many")) = of_Z 1024 false
  /\ parseMaxTokens (Some (lit "4096 tokens")) = of_Z 4096 false.
Proof.
  split; [|split; [|split]].
  - apply (proj1 (proj2 (proj2 (parseMaxTokens_at_least_one None)))).
    reflexivity.
  - apply (proj1 (proj2 (proj2 (proj2
             (parseMaxTokens_at_least_one (Some (lit "0"))))))).
    right. reflexivity.
  - apply (proj1 (proj2 (proj2 (proj2
             (parseMaxTokens_at_least_one (Some (lit "many"))))))).
    left. reflexivity.
  - apply (proj2 (proj2 (proj2 (proj2
             (parseMaxTokens_at_least_one (Some (lit "4096 tokens"))))))) ;
      reflexivity.
Defined.

(** A setting of four hundred nines parses to +Infinity, which the action
    returns as the token limit: it is not an integer. *)
Lemma parseMaxTokens_overflow :
  parseMaxTokens (Some four_hundred_nines) = pInfinity
  /\ is_integer (parseMaxTokens (Some four_hundred_nines)) = false.
Proof. split; vm_compute; reflexivity. Qed.

End Normalizer.

(* ================================================================= *)
(** * Further properties of the action *)

(* ================================================================= *)
(** ** What the reply extractor reports, and what it reads *)

Section ExtractorLevels.

Ltac level_step :=
  cbn [get not_an_object truthy typeof type_tag_eqb negb orb andb
       normalizeReplyContent].

Lemma not_an_object_primitive (v : value) :
  primitive v = true -> not_an_object v = true.
Proof.
  destruct v as [| |b|x|s|items|fields]; try discriminate; intros _;
    try reflexivity; unfold not_an_object; cbn [typeof type_tag_eqb negb];
    apply orb_true_r.
Qed.

(** X1: [extractReply] names the first level that is wrong: a body that is
    not an array or an object is an invalid payload; an object without a
    non-empty [choices] array has no completion choices; a first choice
    that is not an array or an object is an invalid choice; a [message]
    that is not an array or an object is an invalid message; a [content]
    that is neither a string nor an array is an empty completion. *)
Theorem extractReply_failure_levels :
  (forall data, primitive data = true ->
     extractReply data =
       Throw (Error (lit "API Error: invalid response payload")))
  /\ (forall fields,
        (forall first rest,
           lookup (lit "choices") fields <> Arr (first :: rest)) ->
        extractReply (Obj fields) =
          Throw (Error (lit "API Error: no completion choices returned")))
  /\ (forall fields first rest,
        lookup (lit "choices") fields = Arr (first :: rest) ->
        primitive first = true ->
        extractReply (Obj fields) =
          Throw (Error (lit "API Error: invalid completion choice")))
  /\ (forall fields choice rest,
        lookup (lit "choices") fields = Arr (Obj choice :: rest) ->
        primitive (lookup (lit "message") choice) = true ->
        extractReply (Obj fields) =
          Throw (Error (lit "API Error: invalid completion message")))
  /\ (forall fields choice rest message,
        lookup (lit "choices") fields = Arr (Obj choice :: rest) ->
        lookup (lit "message") choice = Obj message ->
        not_text_content (lookup (lit "content") message) = true ->
        extractReply (Obj fields) =
          Throw (Error (lit "API Error: empty completion message"))).
Proof.
  split; [|split; [|split; [|split]]].
  - intros data H. unfold extractReply.
    now rewrite (not_an_object_primitive _ H).
  - intros fields H. unfold extractReply. level_step.
    destruct (lookup (lit "choices") fields) as [| | | | |[|first rest]|];
      try reflexivity.
    exfalso. exact (H first rest eq_refl).
  - intros fields first rest Hc Hp. unfold extractReply. level_step.
    rewrite Hc. now rewrite (not_an_object_primitive _ Hp).
  - intros fields choice rest Hc Hp. unfold extractReply. level_step.
    rewrite Hc. level_step. now rewrite (not_an_object_primitive _ Hp).
  - intros fields choice rest message Hc Hm Hn. unfold extractReply.
    level_step. rewrite Hc. level_step. rewrite Hm. level_step.
    destruct (lookup (lit "content") message); try discriminate; reflexivity.
Qed.

Lemma extractReply_failure_levels_witness :
  extractReply (Str (lit "<html>Bad gateway</html>")) =
    Throw (Error (lit "API Error: invalid response payload"))
  /\ extractReply (body_with_choices (Str (lit "none"))) =
       Throw (Error (lit "API Error: no completion choices returned"))
  /\ extractReply (body_with_choices (Arr [Null])) =
       Throw (Error (lit "API Error: invalid completion choice"))
  /\ extractReply (body_with_choices (Arr [Obj [(lit "index", Num (of_Z 0 false))]])) =
       Throw (Error (lit "API Error: invalid completion message"))
  /\ extractReply (body_with_content Null) =
       Throw (Error (lit "API Error: empty completion message")).
Proof.
  destruct extractReply_failure_levels as [H1 [H2 [H3 [H4 H5]]]].
  split; [|split; [|split; [|split]]].
  - apply H1. reflexivity.
  - apply H2. intros first rest. vm_compute. discriminate.
  - apply (H3 _ Null []); reflexivity.
  - apply (H4 _ [(lit "index", Num (of_Z 0 false))] []); reflexivity.
  - apply (H5 _ [(lit "index", Num (of_Z 0 false));
                 (lit "message",
                  Obj [(lit "role", Str (lit "assistant"));
                       (lit "content", Null)])] []
              [(lit "role", Str (lit "assistant")); (lit "content", Null)]);
      reflexivity.
Defined.

(** X2: an array passes the tests meant for objects, so it is reported one
    level further down: an array body has no completion choices, a first
    choice that is an array has an invalid message, and a message that is
    an array is an empty completion. *)
Theorem extractReply_array_levels :
  (forall items,
     extractReply (Arr items) =
       Throw (Error (lit "API Error: no completion choices returned")))
  /\ (forall fields items rest,
        lookup (lit "choices") fields = Arr (Arr items :: rest) ->
        extractReply (Obj fields) =
          Throw (Error (lit "API Error: invalid completion message")))
  /\ (forall fields choice rest items,
        lookup (lit "choices") fields = Arr (Obj choice :: rest) ->
        lookup (lit "message") choice = Arr items ->
        extractReply (Obj fields) =
          Throw (Error (lit "API Error: empty completion message"))).
Proof.
  split; [|split].
  - intros items. reflexivity.
  - intros fields items rest Hc. unfold extractReply. level_step.
    rewrite Hc. reflexivity.
  - intros fields choice rest items Hc Hm. unfold extractReply. level_step.
    rewrite Hc. level_step. rewrite Hm. reflexivity.
Qed.

Lemma extractReply_array_levels_witness :
  extractReply (body_with_choices (Arr [Arr [Str (lit "hi")]])) =
    Throw (Error (lit "API Error: invalid completion message"))
  /\ extractReply
       (body_with_choices (Arr [Obj [(lit "message", Arr [Str (lit "hi")])]])) =
       Throw (Error (lit "API Error: empty completion message")).
Proof.
  destruct extractReply_array_levels as [_ [H2 H3]]. split.
  - apply (H2 _ [Str (lit "hi")] []). reflexivity.
  - apply (H3 _ [(lit "message", Arr [Str (lit "hi")])] [] [Str (lit "hi")]);
      reflexivity.
Defined.

(** X3: [extractReply] reads the first choice only: the other choices and
    the other fields of the body do not change what it returns or throws. *)
Theorem extractReply_first_choice_only
    (fields : list (jsstring * value)) (first : value) (rest : list value) :
  lookup (lit "choices") fields = Arr (first :: rest) ->
  extractReply (Obj fields) =
    extractReply (Obj [(lit "choices", Arr [first])]).
Proof.
  intros Hc. unfold extractReply. level_step. rewrite Hc.
  change (lookup (lit "choices") [(lit "choices", Arr [first])])
    with (Arr [first]).
  reflexivity.
Qed.

Lemma extractReply_first_choice_only_witness :
  extractReply
    (body_with_choices
       (Arr [Obj [(lit "message", Obj [(lit "content", Str (lit "one"))])];
             Obj [(lit "message", Obj [(lit "content", Str (lit "two"))])]])) =
  extractReply
    (Obj [(lit "choices",
           Arr [Obj [(lit "message", Obj [(lit "content", Str (lit "one"))])]])]).
Proof.
  apply (extractReply_first_choice_only _ _
           [Obj [(lit "message", Obj [(lit "content", Str (lit "two"))])]]).
  reflexivity.
Defined.

Lemma part_text_textless (p : value) : textless p = true -> part_text p = [].
Proof.
  destruct p as [| |b|x|s|items|fields]; try discriminate; intros H;
    try reflexivity.
  - unfold part_text. cbn [typeof type_tag_eqb]. now rewrite andb_false_r.
  - unfold part_text. cbn [typeof type_tag_eqb]. now rewrite andb_false_r.
  - unfold part_text, textless in *. cbn [truthy typeof type_tag_eqb andb get].
    destruct (lookup (lit "text") fields); try discriminate; reflexivity.
Qed.

(** X4: a content given in parts is read as the concatenation of its text:
    string parts read as one string, a part without text can be left out,
    and a single object part with a [text] string reads as that string. *)
Theorem normalizeReplyContent_parts :
  (forall texts,
     normalizeReplyContent (Arr (map Str texts)) =
       normalizeReplyContent (Str (List.concat texts)))
  /\ (forall before part after,
        textless part = true ->
        normalizeReplyContent (Arr (before ++ part :: after)) =
          normalizeReplyContent (Arr (before ++ after)))
  /\ (forall fields s,
        lookup (lit "text") fields = Str s ->
        normalizeReplyContent (Arr [Obj fields]) =
          normalizeReplyContent (Str s)).
Proof.
  split; [|split].
  - intros texts. cbn [normalizeReplyContent]. rewrite map_map.
    cbn [part_text]. now rewrite map_id.
  - intros before part after H. cbn [normalizeReplyContent].
    rewrite !map_app, !concat_app. cbn [map List.concat].
    now rewrite (part_text_textless _ H).
  - intros fields s H. cbn [normalizeReplyContent map List.concat].
    unfold part_text. cbn [truthy typeof type_tag_eqb andb get].
    now rewrite H, app_nil_r.
Qed.

Lemma normalizeReplyContent_parts_witness :
  normalizeReplyContent
    (Arr [Str (lit " Hello, "); Obj [(lit "type", Str (lit "image"))];
          Str (lit "world. ")]) =
    normalizeReplyContent (Arr [Str (lit " Hello, "); Str (lit "world. ")])
  /\ normalizeReplyContent
       (Arr [Obj [(lit "type", Str (lit "text")); (lit "text", Str (lit " Hi "))]]) =
       normalizeReplyContent (Str (lit " Hi ")).
Proof.
  destruct normalizeReplyContent_parts as [_ [H2 H3]]. split.
  - apply (H2 [Str (lit " Hello, ")] (Obj [(lit "type", Str (lit "image"))])
              [Str (lit "world. ")]).
    reflexivity.
  - apply H3. reflexivity.
Defined.

End ExtractorLevels.

(* ================================================================= *)
(** ** Failures of the run, from the network to the message *)

Section RunFailures.

Lemma errorMsg_status_detail (status : N) (body : value) :
  errorMsg (HttpStatusError status body) =
    lit "API Error " ++ toString_N status ++ lit ": " ++ status_detail body.
Proof.
  unfold errorMsg, status_detail. do 3 f_equal.
  destruct body as [| |b|x|s|items|fields];
    cbn [truthy typeof type_tag_eqb andb get nullish]; try reflexivity.
  - destruct b; reflexivity.
  - destruct x; reflexivity.
  - destruct s; reflexivity.
  - destruct (lookup (lit "error") fields) as [| |b|x|s|items|err];
      cbn [truthy typeof type_tag_eqb andb get nullish]; try reflexivity.
    + destruct b; reflexivity.
    + destruct x; reflexivity.
    + destruct s; reflexivity.
    + destruct (lookup (lit "message") err); reflexivity.
Qed.

Lemma pipeline_outcome_in_range (status : N) (xhr_text : option jsstring) :
  (200 <= status < 300)%N ->
  pipeline_outcome (OnLoad status xhr_text) =
    extractReply (parse_body (nullish xhr_text [])).
Proof.
  intros [H1 H2]. apply N.leb_le in H1. apply N.ltb_lt in H2.
  unfold pipeline_outcome, onload. now rewrite H1, H2.
Qed.

Lemma pipeline_outcome_out_of_range (status : N) (xhr_text : option jsstring) :
  ~ (200 <= status < 300)%N ->
  pipeline_outcome (OnLoad status xhr_text) =
    Throw (HttpStatusError status (parse_body (nullish xhr_text []))).
Proof.
  intros H. unfold pipeline_outcome, onload.
  destruct (200 <=? status)%N eqn:H1; [|reflexivity].
  destruct (status <? 300)%N eqn:H2; [|reflexivity].
  exfalso. apply H. split; [now apply N.leb_le | now apply N.ltb_lt].
Qed.

Lemma parse_body_unparsed (text : jsstring) :
  JSON_parse text = None -> parse_body text = Str text.
Proof. intros H. now rewrite parse_body_spec, H. Qed.

(** X5: when the request fails or times out, a run with an API key sends
    its request, prints "Network/Error: Network request failed" (or
    "Network/Error: Request timeout"), throws that message and calls no
    sink. *)
Theorem run_transport_failure (input_text : jsstring)
    (options : ExtensionOptions) (tr : list effect) :
  trim (nullish (apikey options) []) <> [] ->
  run input_text options OnError tr =
    (Throw (Error (lit "Network/Error: Network request failed")),
     tr ++ [request_of input_text options;
            Print (lit "Network/Error: Network request failed")])
  /\ run input_text options OnTimeout tr =
       (Throw (Error (lit "Network/Error: Request timeout")),
        tr ++ [request_of input_text options;
               Print (lit "Network/Error: Request timeout")]).
Proof.
  intros Hkey. rewrite !(run_with_key _ _ _ _ Hkey). split; reflexivity.
Qed.

Lemma run_transport_failure_witness :
  run (lit "hello") sample_options OnError [] =
    (Throw (Error (lit "Network/Error: Network request failed")),
     [request_of (lit "hello") sample_options;
      Print (lit "Network/Error: Network request failed")]).
Proof.
  refine (proj1 (run_transport_failure (lit "hello") sample_options [] _)).
  vm_compute. discriminate.
Defined.

(** X6: a response with a status outside [200,300) never reaches the reply
    extractor, whatever its body: the run prints and throws "API Error",
    the status and the detail of the body, and calls no sink.  When the
    response text is not JSON the detail is that text as it is, and an
    empty text leaves the detail empty. *)
Theorem run_status_failure (input_text : jsstring) (options : ExtensionOptions)
    (status : N) (xhr_text : option jsstring) (tr : list effect) :
  trim (nullish (apikey options) []) <> [] ->
  ~ (200 <= status < 300)%N ->
  let text := nullish xhr_text [] in
  let msg := lit "API Error " ++ toString_N status ++ lit ": "
               ++ status_detail (parse_body text) in
  run input_text options (OnLoad status xhr_text) tr =
    (Throw (Error msg), tr ++ [request_of input_text options; Print msg])
  /\ (JSON_parse text = None ->
      msg = lit "API Error " ++ toString_N status ++ lit ": " ++ text).
Proof.
  intros Hkey Hout. cbv zeta. split.
  - rewrite (run_with_key _ _ _ _ Hkey).
    rewrite (pipeline_outcome_out_of_range _ _ Hout).
    now rewrite errorMsg_status_detail.
  - intros Hp. now rewrite (parse_body_unparsed _ Hp).
Qed.

Lemma run_status_failure_witness :
  run (lit "hello") sample_options (OnLoad 503 (Some [])) [] =
    (Throw (Error (lit "API Error 503: ")),
     [request_of (lit "hello") sample_options; Print (lit "API Error 503: ")])
  /\ run (lit "hello") sample_options (OnLoad 404 (Some text_reply_X)) [] =
       (Throw (Error (lit "API Error 404: Request failed")),
        [request_of (lit "hello") sample_options;
         Print (lit "API Error 404: Request failed")]).
Proof.
  split.
  - refine (proj1 (run_status_failure (lit "hello") sample_options 503
                     (Some []) [] _ _)).
    + vm_compute. discriminate.
    + lia.
  - refine (proj1 (run_status_failure (lit "hello") sample_options 404
                     (Some text_reply_X) [] _ _)).
    + vm_compute. discriminate.
    + lia.
Defined.

(** X7: a response with a status in [200,300) whose text is not JSON (an
    empty text included) is kept as a string, which the reply extractor
    rejects: the run prints and throws
    "Network/Error: API Error: invalid response payload". *)
Theorem run_unparsed_body (input_text : jsstring) (options : ExtensionOptions)
    (status : N) (xhr_text : option jsstring) (tr : list effect) :
  trim (nullish (apikey options) []) <> [] ->
  (200 <= status < 300)%N ->
  JSON_parse (nullish xhr_text []) = None ->
  run input_text options (OnLoad status xhr_text) tr =
    (Throw (Error (lit "Network/Error: API Error: invalid response payload")),
     tr ++ [request_of input_text options;
            Print (lit "Network/Error: API Error: invalid response payload")]).
Proof.
  intros Hkey Hin Hp. rewrite (run_with_key _ _ _ _ Hkey).
  rewrite (pipeline_outcome_in_range _ _ Hin), (parse_body_unparsed _ Hp).
  unfold extractReply.
  rewrite (not_an_object_primitive (Str (nullish xhr_text [])) eq_refl).
  reflexivity.
Qed.

Lemma run_unparsed_body_witness :
  run (lit "hello") sample_options
      (OnLoad 200 (Some (lit "<html>Service unavailable</html>"))) [] =
    (Throw (Error (lit "Network/Error: API Error: invalid response payload")),
     [request_of (lit "hello") sample_options;
      Print (lit "Network/Error: API Error: invalid response payload")]).
Proof.
  apply (run_unparsed_body (lit "hello") sample_options 200
           (Some (lit "<html>Service unavailable</html>")) []).
  - vm_compute. discriminate.
  - lia.
  - vm_compute. reflexivity.
Defined.

(** X8: from the response to the sink: when a response with a status in
    [200,300) parses as JSON to a body of the required shape whose
    normalized content is not empty, the run returns after its request and
    one sink call that carries that normalized content. *)
Theorem run_reply_delivered (input_text : jsstring) (options : ExtensionOptions)
    (status : N) (xhr_text : option jsstring) (tr : list effect)
    (body c : value) :
  trim (nullish (apikey options) []) <> [] ->
  (200 <= status < 300)%N ->
  JSON_parse (nullish xhr_text []) = Some body ->
  required_content body = Some c ->
  normalizeReplyContent c <> [] ->
  run input_text options (OnLoad status xhr_text) tr =
    (Return tt,
     tr ++ [request_of input_text options;
            sink_of (responseHandling options) (normalizeReplyContent c)
              input_text]).
Proof.
  intros Hkey Hin Hp Hc Hn. rewrite (run_with_key _ _ _ _ Hkey).
  rewrite (pipeline_outcome_in_range _ _ Hin), parse_body_spec, Hp.
  rewrite (extractReply_on_required _ _ Hc).
  destruct (normalizeReplyContent c); [contradiction|reflexivity].
Qed.

Lemma run_reply_delivered_witness :
  run (lit " hello ") sample_options (OnLoad 200 (Some text_reply_X)) [] =
    (Return tt,
     [request_of (lit " hello ") sample_options; CopyText (lit "X")]).
Proof.
  apply (run_reply_delivered (lit " hello ") sample_options 200
           (Some text_reply_X) []
           (Obj [(lit "choices",
                  Arr [Obj [(lit "message",
                             Obj [(lit "role", Str (lit "assistant"));
                                  (lit "content", Str (lit " X "))])]])])
           (Str (lit " X "))).
  - vm_compute. discriminate.
  - lia.
  - vm_compute. reflexivity.
  - reflexivity.
  - vm_compute. discriminate.
Defined.

Lemma strip_prefix_app (p s : jsstring) : strip_prefix p (p ++ s) = Some s.
Proof.
  induction p as [|c p IH]; simpl; [reflexivity|].
  unfold char_eqb. now rewrite N.eqb_refl.
Qed.

Lemma starts_with_app (p s : jsstring) : starts_with p (p ++ s) = true.
Proof. unfold starts_with. now rewrite strip_prefix_app. Qed.

(** What the pipeline throws is an [Error] or an [HttpStatusError]. *)
Lemma pipeline_outcome_Throw (net : xhr_event) (e : exception) :
  pipeline_outcome net = Throw e ->
  (exists m, e = Error m) \/ (exists status body, e = HttpStatusError status body).
Proof.
  unfold pipeline_outcome. destruct net as [status xhr_text| |].
  - unfold onload.
    destruct ((200 <=? status)%N && (status <? 300)%N).
    + cbn [data]. intros H. left. exact (extractReply_Throw_inv _ _ H).
    + intros H. injection H as <-. right. eauto.
  - intros H. injection H as <-. left. eauto.
  - intros H. injection H as <-. left. eauto.
Qed.

(** X9: the message of a failed run is the settings message, or starts
    with "API Error " (a status failure), or starts with "Network/Error: "
    (every other failure); it is never "Unknown Error". *)
Theorem run_failure_prefix (input_text : jsstring) (options : ExtensionOptions)
    (net : xhr_event) (tr tr' : list effect) (e : exception) :
  run input_text options net tr = (Throw e, tr') ->
  exists m,
    e = Error m
    /\ m <> lit "Unknown Error"
    /\ (m = lit "Settings error: API Key is required"
        \/ starts_with (lit "API Error ") m = true
        \/ starts_with (lit "Network/Error: ") m = true).
Proof.
  intros Hrun.
  destruct (trim (nullish (apikey options) [])) as [|k ks] eqn:Ek.
  - rewrite (run_without_key _ _ _ _ Ek) in Hrun. injection Hrun as <- _.
    eexists. split; [reflexivity|]. split; [discriminate|]. now left.
  - rewrite run_with_key in Hrun by (rewrite Ek; discriminate).
    destruct (pipeline_outcome net) as [reply|cause] eqn:Ep; [discriminate|].
    injection Hrun as <- _. eexists. split; [reflexivity|].
    destruct (pipeline_outcome_Throw _ _ Ep) as [[m ->]|[status [body ->]]].
    + split; [discriminate|]. right. right. apply starts_with_app.
    + rewrite errorMsg_status_detail. split; [discriminate|].
      right. left. apply starts_with_app.
Qed.

Lemma run_failure_prefix_witness :
  exists m,
    Error (lit "API Error 429: rate limited") = Error m
    /\ m <> lit "Unknown Error"
    /\ (m = lit "Settings error: API Key is required"
        \/ starts_with (lit "API Error ") m = true
        \/ starts_with (lit "Network/Error: ") m = true).
Proof.
  apply (run_failure_prefix (lit "hello") sample_options
           (OnLoad 429 (Some text_rate_limited)) []
           [request_of (lit "hello") sample_options;
            Print (lit "API Error 429: rate limited")]).
  vm_compute. reflexivity.
Defined.

(** X10: what a run with an API key throws depends on the network outcome
    alone: neither the options (the key among them) nor the selection can
    change the message. *)
Theorem run_failure_depends_on_network
    (input1 input2 : jsstring) (options1 options2 : ExtensionOptions)
    (net : xhr_event) (tr1 tr2 : list effect) (e : exception) :
  trim (nullish (apikey options1) []) <> [] ->
  trim (nullish (apikey options2) []) <> [] ->
  fst (run input1 options1 net tr1) = Throw e ->
  fst (run input2 options2 net tr2) = Throw e.
Proof.
  intros H1 H2. rewrite (run_with_key _ _ _ _ H1), (run_with_key _ _ _ _ H2).
  destruct (pipeline_outcome net); [discriminate|exact (fun H => H)].
Qed.

Lemma run_failure_depends_on_network_witness :
  fst (run (lit "other") plain_options OnTimeout []) =
    Throw (Error (lit "Network/Error: Request timeout")).
Proof.
  apply (run_failure_depends_on_network (lit "hello") (lit "other")
           sample_options plain_options OnTimeout [] []).
  - vm_compute. discriminate.
  - vm_compute. discriminate.
  - reflexivity.
Defined.

End RunFailures.

(* ================================================================= *)
(** ** The request a run sends *)

Section RequestSent.



Lemma requests_sink_of (mode reply input_text : jsstring) :
  requests [sink_of mode reply input_text] = [].
Proof.
  unfold sink_of.
  destruct (str_eqb mode (lit "copy")); [reflexivity|].
  destruct (str_eqb mode (lit "show")); [reflexivity|].
  destruct (str_eqb mode (lit "replace")); reflexivity.
Qed.

(** The requests of a run that starts from an empty trace. *)
Lemma requests_of_run (input_text : jsstring) (options : ExtensionOptions)
    (net : xhr_event) :
  trim (nullish (apikey options) []) <> [] ->
  requests (snd (run input_text options net [])) =
    requests [request_of input_text options].
Proof.
  intros Hkey. rewrite (run_with_key _ _ _ _ Hkey).
  destruct (pipeline_outcome net) as [reply|e]; cbn [snd app].
  - change [request_of input_text options;
            sink_of (responseHandling options) reply input_text]
      with ([request_of input_text options]
              ++ [sink_of (responseHandling options) reply input_text]).
    unfold requests at 1. rewrite flat_map_app.
    fold (requests [sink_of (responseHandling options) reply input_text]).
    rewrite requests_sink_of. now rewrite app_nil_r.
  - reflexivity.
Qed.



(** X12: the model sent is the default only when the model setting is
    absent; a setting that is present is sent trimmed, so a blank setting
    is sent as the empty string. *)
Theorem run_request_model (input_text : jsstring)
    (options : ExtensionOptions) (net : xhr_event)
    (payload : ChatRequest) (headers : list (jsstring * jsstring)) :
  trim (nullish (apikey options) []) <> [] ->
  In (payload, headers) (requests (snd (run input_text options net []))) ->
  (model options = None ->
     req_model payload = lit "google/gemini-3-flash-preview")
  /\ (forall m, model options = Some m -> req_model payload = trim m)
  /\ (forall m, model options = Some m -> trim m = [] ->
        req_model payload = []).
Proof.
  intros Hkey Hin. rewrite (requests_of_run _ _ _ Hkey) in Hin.
  unfold request_of in Hin. cbn [requests flat_map app] in Hin.
  destruct Hin as [Hin|[]]. injection Hin as <- _. cbn [req_model].
  split; [|split].
  - intros ->. vm_compute. reflexivity.
  - intros m ->. reflexivity.
  - intros m -> Hm. exact Hm.
Qed.

Lemma run_request_model_witness :
  exists payload headers,
    In (payload, headers)
       (requests (snd (run (lit "hello") plain_options OnError [])))
    /\ req_model payload = [].
Proof.
  eexists. eexists.
  assert (Hin : In (req_payload_of (request_of (lit "hello") plain_options),
                    request_headers (lit "sk-or-other"))
                   (requests (snd (run (lit "hello") plain_options OnError []))))
    by (vm_compute; left; reflexivity).
  split; [exact Hin|].
  refine (proj2 (proj2 (run_request_model (lit "hello") plain_options OnError
                          _ _ _ Hin)) (lit "  ") eq_refl eq_refl).
  vm_compute. discriminate.
Defined.

(** X13: in the default (append) mode without a user prompt, the request
    carries the trimmed selection as its user message, while the text
    pasted is the selection as it was, untrimmed, two newlines and the
    reply. *)
Theorem run_append_keeps_selection (input_text : jsstring)
    (options : ExtensionOptions) (net : xhr_event) (reply : jsstring) :
  trim (nullish (apikey options) []) <> [] ->
  userPrompt options = None ->
  responseHandling options <> lit "copy" ->
  responseHandling options <> lit "show" ->
  responseHandling options <> lit "replace" ->
  pipeline_outcome net = Return reply ->
  exists payload headers,
    run input_text options net [] =
      (Return tt,
       [XhrSend OPENROUTER_API_URL payload headers REQUEST_TIMEOUT_MS;
        PasteText (input_text ++ [newline; newline] ++ reply)])
    /\ last (req_messages payload) {| msg_role := system; content := [] |} =
         {| msg_role := user; content := trim input_text |}.
Proof.
  intros Hkey Hup H1 H2 H3 Hout.
  rewrite (run_with_key _ _ _ _ Hkey), Hout. unfold request_of, sink_of.
  rewrite (str_eqb_neq _ _ H1), (str_eqb_neq _ _ H2), (str_eqb_neq _ _ H3).
  eexists. eexists. split; [reflexivity|].
  cbn [req_messages]. unfold messages, userContent. rewrite Hup.
  cbn [trimmed_nonempty].
  destruct (trimmed_nonempty (systemPrompt options)); reflexivity.
Qed.

Lemma run_append_keeps_selection_witness :
  exists payload headers,
    run (lit " hello ") plain_options (OnLoad 200 (Some text_reply_X)) [] =
      (Return tt,
       [XhrSend OPENROUTER_API_URL payload headers REQUEST_TIMEOUT_MS;
        PasteText (lit " hello " ++ [newline; newline] ++ lit "X")])
    /\ last (req_messages payload) {| msg_role := system; content := [] |} =
         {| msg_role := user; content := lit "hello" |}.
Proof.
  apply (run_append_keeps_selection (lit " hello ") plain_options
           (OnLoad 200 (Some text_reply_X)) (lit "X")).
  - vm_compute. discriminate.
  - reflexivity.
  - discriminate.
  - discriminate.
  - discriminate.
  - vm_compute. reflexivity.
Defined.

End RequestSent.

(* ================================================================= *)
(** ** How the settings are read *)

Section SettingsRead.

Lemma digit_not_ws (c : char) : is_digit c = true -> is_ws c = false.
Proof.
  intros H. destruct (is_ws c) eqn:E; [|reflexivity].
  rewrite (ws_not_digit _ E) in H. discriminate.
Qed.

Lemma take_sign_other (c : char) (r : jsstring) :
  c <> 43%N -> c <> 45%N -> take_sign (c :: r) = (false, c :: r).
Proof.
  intros H1 H2. unfold take_sign.
  destruct c as [|p]; [reflexivity|].
  repeat (try reflexivity; try (exfalso; apply H1; reflexivity);
          try (exfalso; apply H2; reflexivity);
          destruct p as [p|p|]).
Qed.

Lemma take_sign_digit (c : char) (r : jsstring) :
  is_digit c = true -> take_sign (c :: r) = (false, c :: r).
Proof.
  intros H. apply take_sign_other; intros ->; discriminate.
Qed.

Lemma span_digits (ds tail : jsstring) :
  forallb is_digit ds = true ->
  match tail with [] => True | c :: _ => is_digit c = false end ->
  span is_digit (ds ++ tail) = (ds, tail).
Proof.
  intros Hd Ht. induction ds as [|d ds IH]; simpl.
  - destruct tail as [|c r]; [reflexivity|]. simpl. now rewrite Ht.
  - simpl in Hd. apply andb_true_iff in Hd. destruct Hd as [H1 H2].
    now rewrite H1, (IH H2).
Qed.

(** [parseInt] on a text that starts with digits reads those digits. *)
Lemma parseInt10_leading_digits (ds tail : jsstring) :
  ds <> [] -> forallb is_digit ds = true ->
  match tail with [] => True | c :: _ => is_digit c = false end ->
  parseInt10 (ds ++ tail) = of_Z (digits_value ds) false.
Proof.
  intros Hne Hd Ht. unfold parseInt10.
  destruct ds as [|d ds]; [contradiction|].
  assert (Hd0 : is_digit d = true)
    by (simpl in Hd; apply andb_true_iff in Hd; tauto).
  change ((d :: ds) ++ tail) with (d :: (ds ++ tail)).
  cbn [trimStart]. rewrite (digit_not_ws _ Hd0), (take_sign_digit _ _ Hd0).
  change (d :: (ds ++ tail)) with ((d :: ds) ++ tail).
  rewrite (span_digits _ _ Hd Ht). reflexivity.
Qed.

(** X14: [parseMaxTokens] reads the leading digits of the setting and
    nothing after them: what follows the first character that is not a
    digit (a fraction, an exponent, a unit) does not change the result. *)
Theorem parseMaxTokens_leading_digits (ds : jsstring) (c : char)
    (rest : jsstring) :
  ds <> [] -> forallb is_digit ds = true -> is_digit c = false ->
  parseMaxTokens (Some (ds ++ c :: rest)) = parseMaxTokens (Some ds).
Proof.
  intros Hne Hd Hc. unfold parseMaxTokens. cbn [nullish].
  pose proof (parseInt10_leading_digits ds (c :: rest) Hne Hd Hc) as E1.
  pose proof (parseInt10_leading_digits ds [] Hne Hd I) as E2.
  rewrite app_nil_r in E2. now rewrite E1, E2.
Qed.

Lemma parseMaxTokens_leading_digits_witness :
  parseMaxTokens (Some (lit "12.9")) = parseMaxTokens (Some (lit "12"))
  /\ parseMaxTokens (Some (lit "2e3")) = parseMaxTokens (Some (lit "2")).
Proof.
  split.
  - apply (parseMaxTokens_leading_digits (lit "12") 46%N (lit "9"));
      [discriminate|reflexivity|reflexivity].
  - apply (parseMaxTokens_leading_digits (lit "2") 101%N (lit "3"));
      [discriminate|reflexivity|reflexivity].
Defined.

(** X15: a setting that is all white space (the empty string included) is
    not a number: the temperature is then 1.0 and the token limit 1024. *)
Theorem blank_settings_default (s : jsstring) :
  forallb is_ws s = true ->
  parseTemperature (Some s) = of_Z 1 false
  /\ parseMaxTokens (Some s) = of_Z 1024 false.
Proof.
  intros H. apply trimStart_nil_iff in H.
  unfold parseTemperature, parseMaxTokens, parseFloat, parseInt10.
  cbn [nullish]. rewrite H. split; reflexivity.
Qed.

Lemma blank_settings_default_witness :
  parseTemperature (Some (lit "  ")) = of_Z 1 false
  /\ parseMaxTokens (Some (lit "  ")) = of_Z 1024 false.
Proof. apply (blank_settings_default (lit "  ")). reflexivity. Defined.

Lemma digits2_pos_lower (m : positive) :
  (2 ^ (Z.pos (digits2_pos m) - 1) <= Z.pos m)%Z.
Proof.
  induction m as [m IH|m IH|]; cbn [digits2_pos].
  - rewrite Pos2Z.inj_succ.
    replace (Z.succ (Z.pos (digits2_pos m)) - 1)%Z
      with (Z.succ (Z.pos (digits2_pos m) - 1)) by lia.
    rewrite Z.pow_succ_r by lia. rewrite (Pos2Z.inj_xI m). lia.
  - rewrite Pos2Z.inj_succ.
    replace (Z.succ (Z.pos (digits2_pos m)) - 1)%Z
      with (Z.succ (Z.pos (digits2_pos m) - 1)) by lia.
    rewrite Z.pow_succ_r by lia. rewrite (Pos2Z.inj_xO m). lia.
  - simpl. lia.
Qed.

Lemma digits2_pos_below (m : positive) :
  (Z.pos m < 2 ^ 53)%Z -> (Z.pos (digits2_pos m) <= 53)%Z.
Proof.
  intros H. pose proof (digits2_pos_lower m) as L.
  destruct (Z_le_gt_dec (Z.pos (digits2_pos m)) 53) as [Hle|Hgt];
    [exact Hle|].
  exfalso.
  assert (2 ^ 53 <= 2 ^ (Z.pos (digits2_pos m) - 1))%Z
    by (apply Z.pow_le_mono_r; lia).
  lia.
Qed.

(** A mantissa at its canonical exponent, within range, is kept. *)
Lemma binary_round_aux_kept (sx : bool) (m : positive) (e : Z) :
  fexp prec emax (Z.pos (digits2_pos m) + e) = e ->
  (e <= emax - prec)%Z ->
  binary_round_aux prec emax sx (Z.pos m) e loc_Exact = S754_finite sx m e.
Proof.
  intros Hf He. unfold binary_round_aux, shr_fexp.
  cbn [Zdigits2]. rewrite Hf, Z.sub_diag.
  cbn [shr shr_record_of_loc shr_m loc_of_shr_record round_nearest_even
       Zdigits2].
  rewrite Hf, Z.sub_diag. cbn [shr shr_record_of_loc shr_m].
  apply Z.leb_le in He. now rewrite He.
Qed.

(** The Number for a positive integer below 2^53 holds that integer. *)
Lemma of_Z_small (m : positive) :
  (Z.pos m < 2 ^ 53)%Z ->
  exists M e,
    of_Z (Z.pos m) false = S754_finite false M e
    /\ (-52 <= e <= 0)%Z
    /\ Z.pos M = (Z.pos m * 2 ^ (- e))%Z.
Proof.
  intros Hm. pose proof (digits2_pos_below m Hm) as Hd.
  unfold of_Z, binary_normalize, binary_round, shl_align.
  rewrite Z.add_0_r, Z.sub_0_r.
  assert (Hf : fexp prec emax (Z.pos (digits2_pos m)) =
               (Z.pos (digits2_pos m) - 53)%Z).
  { unfold fexp, emin, prec, emax. apply Z.max_l. lia. }
  destruct (fexp prec emax (Z.pos (digits2_pos m))) as [|f|k] eqn:E.
  - exists m, 0%Z. split.
    + apply binary_round_aux_kept.
      * now rewrite Z.add_0_r.
      * unfold emax, prec. lia.
    + split; [lia|]. simpl. lia.
  - lia.
  - exists (Pos.iter xO m k), (Z.neg k). split.
    + now apply binary_round_aux_aligned.
    + split; [lia|]. cbn [Z.opp]. apply iter_xO_value.
Qed.

Lemma of_Z_one : of_Z 1 false = S754_finite false 4503599627370496 (-52).
Proof. vm_compute. reflexivity. Qed.

(** X16: a setting made of digits whose value is between 1 and 2^53 - 1
    is returned as it is: [parseMaxTokens] neither rounds nor bounds it. *)
Theorem parseMaxTokens_exact (ds : jsstring) :
  ds <> [] -> forallb is_digit ds = true ->
  (1 <= digits_value ds < 2 ^ 53)%Z ->
  number_to_Z (parseMaxTokens (Some ds)) = Some (digits_value ds).
Proof.
  intros Hne Hd Hv. unfold parseMaxTokens. cbn [nullish].
  pose proof (parseInt10_leading_digits ds [] Hne Hd I) as E.
  rewrite app_nil_r in E. rewrite E.
  destruct (digits_value ds) as [|m|m] eqn:En; try lia.
  destruct (of_Z_small m (proj2 Hv)) as [M [e [HM [He HV]]]].
  rewrite HM. cbn [isNaN orb]. rewrite of_Z_one.
  assert (Hlt : num_lt (S754_finite false M e)
                  (S754_finite false 4503599627370496 (-52)) = false).
  { unfold num_lt, SFltb. cbn [SFcompare].
    destruct (e ?= -52)%Z eqn:Ec.
    - apply Z.compare_eq in Ec. subst e.
      rewrite Pos.compare_cont_spec. cbn [Pos.switch_Eq].
      destruct (M ?= 4503599627370496)%positive eqn:Em; try reflexivity.
      apply Pos.compare_lt_iff in Em. apply Pos2Z.pos_lt_pos in Em.
      rewrite HV in Em. change (- -52)%Z with 52%Z in Em.
      assert (H52 : (2 ^ 52 = 4503599627370496)%Z) by reflexivity.
      rewrite H52 in Em. lia.
    - rewrite Z.compare_lt_iff in Ec. lia.
    - reflexivity. }
  rewrite Hlt. unfold number_to_Z.
  destruct (0 <=? e)%Z eqn:E0.
  - apply Z.leb_le in E0. assert (e = 0%Z) by lia. subst e.
    simpl in HV |- *. f_equal. lia.
  - rewrite HV, Z.mod_mul by (apply Z.pow_nonzero; lia).
    cbn [Z.eqb]. rewrite Z.div_mul by (apply Z.pow_nonzero; lia).
    f_equal; lia.
Qed.

Lemma parseMaxTokens_exact_witness :
  number_to_Z (parseMaxTokens (Some (lit "200000"))) = Some 200000%Z.
Proof.
  apply (parseMaxTokens_exact (lit "200000")).
  - discriminate.
  - reflexivity.
  - vm_compute. split; [discriminate|reflexivity].
Defined.

End SettingsRead.

(* ================================================================= *)
(** ** The selection and the status in what is sent and shown *)

Section SelectionAndStatus.

(** X17: a selection that is all white space is not refused: with an API
    key and no user prompt the run sends its one request, whose user
    message has the empty string as content. *)
Theorem run_blank_selection (input_text : jsstring)
    (options : ExtensionOptions) (net : xhr_event) :
  trim (nullish (apikey options) []) <> [] ->
  userPrompt options = None ->
  forallb is_ws input_text = true ->
  exists payload headers,
    requests (snd (run input_text options net [])) = [(payload, headers)]
    /\ last (req_messages payload) {| msg_role := system; content := [] |} =
         {| msg_role := user; content := [] |}.
Proof.
  intros Hkey Hup Hws. rewrite (requests_of_run _ _ _ Hkey).
  unfold request_of. cbn [requests flat_map app].
  eexists. eexists. split; [reflexivity|].
  cbn [req_messages]. unfold messages, userContent. rewrite Hup.
  cbn [trimmed_nonempty]. apply trim_nil_iff in Hws. rewrite Hws.
  destruct (trimmed_nonempty (systemPrompt options)); reflexivity.
Qed.

Lemma run_blank_selection_witness :
  exists payload headers,
    requests (snd (run (lit "   ") plain_options OnError [])) =
      [(payload, headers)]
    /\ last (req_messages payload) {| msg_role := system; content := [] |} =
         {| msg_role := user; content := [] |}.
Proof.
  apply (run_blank_selection (lit "   ") plain_options OnError).
  - vm_compute. discriminate.
  - reflexivity.
  - reflexivity.
Defined.

Lemma size_nat_div10 (n : N) :
  (n / 10 <> 0)%N -> N.size_nat (n / 10) < N.size_nat n.
Proof.
  intros Hq.
  destruct n as [|p]; [now elim Hq|].
  destruct (Npos p / 10)%N as [|q] eqn:Eq; [now elim Hq|].
  cbn [N.size_nat].
  assert (Hp : (Z.pos p < 2 ^ Z.of_nat (Pos.size_nat p))%Z)
    by (apply Zpower2_Psize; lia).
  assert (Hs : 0 < Pos.size_nat p) by (destruct p; simpl; lia).
  assert (Hq10 : (Z.pos q = Z.pos p / 10)%Z).
  { change (Z.pos q) with (Z.of_N (N.pos q)). rewrite <- Eq.
    now rewrite N2Z.inj_div. }
  assert (Hle : Pos.size_nat q <= Pos.size_nat p - 1).
  { apply Zpower2_Psize.
    assert (Hpow : (2 ^ Z.of_nat (Pos.size_nat p) =
                    2 * 2 ^ Z.of_nat (Pos.size_nat p - 1))%Z).
    { rewrite <- Z.pow_succ_r by lia. f_equal. lia. }
    rewrite Hq10.
    apply Z.div_lt_upper_bound; [lia|]. lia. }
  lia.
Qed.

(** The digits [digits_of] puts before [acc] spell [n]. *)
Lemma digits_of_value (fuel : nat) : forall (n : N) (acc : jsstring),
  N.size_nat n <= fuel -> 0 < fuel ->
  fold_left (fun a c => (10 * a + Z.of_N (c - 48))%Z) (digits_of fuel n acc) 0%Z =
  fold_left (fun a c => (10 * a + Z.of_N (c - 48))%Z) acc (Z.of_N n).
Proof.
  induction fuel as [|fuel IH]; intros n acc Hs Hf; [lia|].
  cbn [digits_of]. unfold digit_char.
  pose proof (N.div_mod n 10 ltac:(discriminate)) as Hn.
  destruct (N.eqb_spec (n / 10) 0) as [Hq|Hq].
  - cbn [fold_left]. f_equal. rewrite Hq in Hn. clear - Hn.
    generalize dependent (n mod 10)%N. intros r Hn. lia.
  - pose proof (size_nat_div10 n Hq) as Hlt.
    assert (Hpos : 0 < N.size_nat (n / 10)).
    { destruct (n / 10)%N as [|p]; [contradiction|].
      destruct p; simpl; lia. }
    assert (Hfuel : N.size_nat (n / 10) <= fuel /\ 0 < fuel).
    { revert Hs Hlt Hpos. generalize (N.size_nat (n / 10)) (N.size_nat n).
      intros a b. lia. }
    rewrite IH by tauto. cbn [fold_left]. f_equal. clear - Hn.
    generalize dependent (n mod 10)%N. generalize dependent (n / 10)%N.
    intros q r Hn. lia.
Qed.

Lemma digits_of_digits (fuel : nat) : forall (n : N) (acc : jsstring),
  forallb is_digit acc = true ->
  forallb is_digit (digits_of fuel n acc) = true.
Proof.
  induction fuel as [|fuel IH]; intros n acc Ha; [exact Ha|].
  cbn [digits_of].
  assert (Hd : is_digit (digit_char (n mod 10)) = true).
  { unfold is_digit, digit_char.
    pose proof (N.mod_lt n 10 ltac:(discriminate)) as Hm.
    generalize dependent (n mod 10)%N. intros r Hm.
    apply andb_true_iff. split; apply N.leb_le; lia. }
  destruct (n / 10 =? 0)%N.
  - cbn [forallb]. now rewrite Hd.
  - apply IH. cbn [forallb]. now rewrite Hd.
Qed.

(** X18: the status in the message of a status failure is written in
    decimal: between "API Error " and ": " stand digits only, and they
    spell the status. *)
Theorem errorMsg_status_digits (status : N) (body : value) :
  exists digits,
    errorMsg (HttpStatusError status body) =
      lit "API Error " ++ digits ++ lit ": " ++ status_detail body
    /\ forallb is_digit digits = true
    /\ digits_value digits = Z.of_N status.
Proof.
  exists (toString_N status). split; [apply errorMsg_status_detail|].
  unfold toString_N. split.
  - now apply digits_of_digits.
  - unfold digits_value. rewrite digits_of_value by lia. reflexivity.
Qed.

Lemma printed_app (a b : list effect) : printed (a ++ b) = printed a ++ printed b.
Proof. unfold printed. apply flat_map_app. Qed.

Lemma printed_sink_of (mode reply input_text : jsstring) :
  printed [sink_of mode reply input_text] = [].
Proof.
  unfold sink_of.
  destruct (str_eqb mode (lit "copy")); [reflexivity|].
  destruct (str_eqb mode (lit "show")); [reflexivity|].
  destruct (str_eqb mode (lit "replace")); reflexivity.
Qed.

(** X20: a run returns normally only when the API key is present and a
    response with a status in [200,300) arrived; it has then made its
    request and one sink call, whose reply is trimmed and not empty, and
    printed nothing. *)
Theorem run_success_delivers_reply (input_text : jsstring)
    (options : ExtensionOptions) (net : xhr_event) (tr tr' : list effect) :
  run input_text options net tr = (Return tt, tr') ->
  trim (nullish (apikey options) []) <> []
  /\ (exists status xhr_text,
        net = OnLoad status xhr_text /\ (200 <= status < 300)%N)
  /\ (exists reply,
        reply <> [] /\ trim reply = reply
        /\ tr' = tr ++ [request_of input_text options;
                        sink_of (responseHandling options) reply input_text])
  /\ printed tr' = printed tr.
Proof.
  intros Hrun.
  destruct (trim (nullish (apikey options) [])) as [|k ks] eqn:Ek.
  { rewrite (run_without_key _ _ _ _ Ek) in Hrun. discriminate. }
  rewrite run_with_key in Hrun by (rewrite Ek; discriminate).
  destruct (pipeline_outcome net) as [reply|e] eqn:Ep; [|discriminate].
  injection Hrun as <-. split; [discriminate|].
  split; [|split].
  - destruct net as [status xhr_text| |]; try discriminate.
    exists status, xhr_text. split; [reflexivity|].
    unfold pipeline_outcome, onload in Ep.
    destruct (200 <=? status)%N eqn:H1; [|discriminate].
    destruct (status <? 300)%N eqn:H2; [|discriminate].
    split; [now apply N.leb_le | now apply N.ltb_lt].
  - exists reply.
    assert (Hr : exists data, extractReply data = Return reply).
    { destruct net as [status xhr_text| |]; try discriminate.
      unfold pipeline_outcome in Ep.
      destruct (onload status xhr_text) as [response|e]; [|discriminate].
      eauto. }
    destruct Hr as [data Hr].
    destruct (extractReply_Return_inv _ _ Hr) as [Hne [c ->]].
    split; [exact Hne|]. split; [apply normalizeReplyContent_trimmed|].
    reflexivity.
  - change [request_of input_text options;
            sink_of (responseHandling options) reply input_text]
      with ([request_of input_text options]
              ++ [sink_of (responseHandling options) reply input_text]).
    rewrite !printed_app, printed_sink_of. unfold request_of.
    cbn [printed flat_map app]. now rewrite !app_nil_r.
Qed.

Lemma run_success_delivers_reply_witness :
  trim (nullish (apikey sample_options) []) <> []
  /\ (exists status xhr_text,
        OnLoad 200 (Some text_reply_X) = OnLoad status xhr_text
        /\ (200 <= status < 300)%N)
  /\ (exists reply,
        reply <> [] /\ trim reply = reply
        /\ [request_of (lit " hello ") sample_options; CopyText (lit "X")] =
           [] ++ [request_of (lit " hello ") sample_options;
                  sink_of (responseHandling sample_options) reply (lit " hello ")])
  /\ printed [request_of (lit " hello ") sample_options; CopyText (lit "X")] =
       printed [].
Proof.
  apply (run_success_delivers_reply (lit " hello ") sample_options
           (OnLoad 200 (Some text_reply_X)) []).
  vm_compute. reflexivity.
Defined.

End SelectionAndStatus.

(** A selection without a dollar sign, in each of the three cases. *)
Lemma userContent_dollar_free_witness :
  userContent (lit "hello") (Some (lit " Translate: {{text}} ({{text}})! ")) =
    userContent_spec (lit "hello") (Some (lit " Translate: {{text}} ({{text}})! ")).
Proof.
  apply (userContent_dollar_free (lit "hello")). reflexivity.
Defined.
